(** * Avatar upload and retrieval service (app/main.py)

    A shallow embedding of the two request handlers of [app/main.py],
    [upload_avatar] and [get_user_avatar], together with the dependencies
    [get_current_user] and [get_user_by_id].

    The process-wide dictionary [USERS] and the directory [AVATAR_DIR] are
    the only mutable resources of the program.  They are modelled as one
    store that is threaded through a state-and-exception monad; every
    mutation of the store is also appended to a trace, so that the order of
    the effects of one request and the stores in between can be talked
    about.  Logging calls do not touch the store and are left out. *)

From Stdlib Require Import ZArith Ascii String List Lia.
From stdpp Require Import base option gmap strings list.

Local Open Scope string_scope.
Local Open Scope list_scope.
Local Open Scope Z_scope.

(** ** Python string primitives used by the handlers *)

Module Py.

(** [str.rfind(c)] for a one-character needle: the highest index of [c],
    or [-1]. *)
Fixpoint rfind_from (c : ascii) (s : string) (i last : Z) : Z :=
  match s with
  | EmptyString => last
  | String a s' => rfind_from c s' (i + 1) (if Ascii.eqb a c then i else last)
  end.

Definition rfind (c : ascii) (s : string) : Z := rfind_from c s 0 (-1).

(** Slices [p[:n]], [p[n:]] and [p[i:i+1]] for [0 <= n]. *)
Definition take (n : Z) (p : string) : string :=
  String.substring 0 (Z.to_nat n) p.

Definition drop (n : Z) (p : string) : string :=
  String.substring (Z.to_nat n) (String.length p - Z.to_nat n) p.

Definition char_at (i : Z) (p : string) : string :=
  String.substring (Z.to_nat i) 1 p.

(** The [while filenameIndex < dotIndex] loop of [genericpath._splitext];
    [n] is the number of iterations left, [dotIndex - filenameIndex]. *)
Fixpoint skip_leading_dots (p : string) (dotIndex filenameIndex : Z) (n : nat)
  : string * string :=
  match n with
  | O => (p, "")
  | S n' =>
      if negb (String.eqb (char_at filenameIndex p) ".")
      then (take dotIndex p, drop dotIndex p)
      else skip_leading_dots p dotIndex (filenameIndex + 1) n'
  end.

(** [os.path.splitext] (posixpath: sep is "/", there is no altsep). *)
Definition splitext (p : string) : string * string :=
  let sepIndex := rfind "/" p in
  let dotIndex := rfind "." p in
  if dotIndex >? sepIndex
  then skip_leading_dots p dotIndex (sepIndex + 1)
         (Z.to_nat (dotIndex - (sepIndex + 1)))
  else (p, "").

(** [str.lower] on the letters A-Z.  Python also maps letters outside
    ASCII; none of them is mapped to a letter of "png", "jpg" or "jpeg",
    so membership of the lowered extension in the accepted list, the only
    use the handler makes of it, is decided by the ASCII letters. *)
Definition lower_ascii (c : ascii) : ascii :=
  let n := N_of_ascii c in
  if ((65 <=? n) && (n <=? 90))%N then ascii_of_N (n + 32) else c.

Fixpoint lower (s : string) : string :=
  match s with
  | EmptyString => EmptyString
  | String a s' => String (lower_ascii a) (lower s')
  end.

Definition startswith (s pre : string) : bool := String.prefix pre s.

Definition endswith (s suf : string) : bool :=
  let n := String.length s in
  let k := String.length suf in
  (k <=? n)%nat && String.eqb (String.substring (n - k) k s) suf.

(** [os.path.join(a, b)] (posixpath, two arguments). *)
Definition os_path_join (a b : string) : string :=
  if startswith b "/" then b
  else if String.eqb a "" || endswith a "/" then a +:+ b
  else a +:+ "/" +:+ b.

(** Truth value of an [Optional[str]]: [None] and the empty string are
    false. *)
Definition truthy (o : option string) : bool :=
  match o with
  | None => false
  | Some s => negb (String.eqb s "")
  end.

End Py.

(** ** Data model *)

Module User.
Record t := mk {
  id : string;
  username : string;
  avatar_filename : option string;
}.
Definition with_avatar_filename (u : t) (f : option string) : t :=
  {| id := id u; username := username u; avatar_filename := f |}.
End User.

Module UploadFile.
(** The multipart file field: [contents] is what [await file.read()]
    yields; a part is a file only when it carries a file name, and
    starlette gives [content_type] as [None] when the part has no
    Content-Type header. *)
Record t := mk {
  filename : string;
  content_type : option string;
  contents : list Byte.byte;
}.
End UploadFile.

Module AvatarUploadResponse.
Record t := mk {
  message : string;
  avatar_url : string;
  user_id : string;
}.
End AvatarUploadResponse.

Module FileResponse.
(** The arguments the handler builds its [FileResponse] from, and [body],
    the content of the file at [path], which the response streams to the
    caller. *)
Record t := mk {
  path : string;
  media_type : string;
  filename : string;
  body : list Byte.byte;
}.
End FileResponse.

Inductive Exception :=
| HTTPException (status_code : Z) (detail : string)
| KeyError (key : string)
| FileNotFoundError (path : string).

Definition AVATAR_DIR : string := "./avatars".
Definition ALLOWED_MIME_TYPES : gset string := {[ "image/jpeg"; "image/png" ]}.
Definition MAX_AVATAR_SIZE : Z := 2 * 1024 * 1024.

(** The store: the dictionary [USERS] and the files under [AVATAR_DIR],
    keyed by the path string they are opened with. *)
Record Store := mkStore {
  USERS : gmap string User.t;
  files : gmap string (list Byte.byte);
}.

Inductive Effect :=
| OsRemove (path : string)
| FileWrite (path : string) (contents : list Byte.byte)
| SetAvatarFilename (key : string) (filename : string).

(** [past] lists the effects performed so far, oldest first, each with the
    store it left behind. *)
Record Machine := mkMachine {
  now : Store;
  past : list (Effect * Store);
}.

Definition USERS_initial : gmap string User.t :=
  <[ "u1" := User.mk "u1" "alice" None ]>
  (<[ "u2" := User.mk "u2" "bob" None ]> ∅).

(** ** State and exception monad *)

Definition M (A : Type) : Type := Machine → (Exception + A) * Machine.

Definition ret {A} (a : A) : M A := λ m, (inr a, m).

Definition raise {A} (e : Exception) : M A := λ m, (inl e, m).

Definition bind {A B} (c : M A) (k : A → M B) : M B :=
  λ m, match c m with
       | (inl e, m') => (inl e, m')
       | (inr a, m') => k a m'
       end.

#[global] Instance M_ret : MRet M := @ret.
#[global] Instance M_bind : MBind M := λ A B k c, bind c k.

Definition perform (e : Effect) (s : Store) : M unit :=
  λ m, (inr tt, {| now := s; past := past m ++ [(e, s)] |}).

(** [try: c  except Exception: pass] *)
Definition try_except_pass (c : M unit) : M unit :=
  λ m, match c m with
       | (inl _, m') => (inr tt, m')
       | r => r
       end.

(** *** Primitive operations on the store *)

(** [USERS.get(key)] *)
Definition USERS_get (key : string) : M (option User.t) :=
  λ m, (inr (USERS (now m) !! key), m).

(** [USERS[key]] *)
Definition USERS_getitem (key : string) : M User.t :=
  λ m, match USERS (now m) !! key with
       | Some u => (inr u, m)
       | None => (inl (KeyError key), m)
       end.

(** [USERS[key]["avatar_filename"] = filename] *)
Definition USERS_set_avatar_filename (key filename : string) : M unit :=
  λ m, match USERS (now m) !! key with
       | Some u =>
           perform (SetAvatarFilename key filename)
             {| USERS := <[ key := User.with_avatar_filename u (Some filename) ]>
                           (USERS (now m));
                files := files (now m) |} m
       | None => (inl (KeyError key), m)
       end.

(** [os.remove(path)] *)
Definition os_remove (path : string) : M unit :=
  λ m, match files (now m) !! path with
       | Some _ =>
           perform (OsRemove path)
             {| USERS := USERS (now m); files := delete path (files (now m)) |} m
       | None => (inl (FileNotFoundError path), m)
       end.

(** [async with aiofiles.open(path, "wb") as f: await f.write(contents)].
    The write is taken to succeed: a full disk or a missing directory is
    not part of the model. *)
Definition aiofiles_write (path : string) (contents : list Byte.byte) : M unit :=
  λ m, perform (FileWrite path contents)
         {| USERS := USERS (now m); files := <[ path := contents ]> (files (now m)) |} m.

(** [os.path.exists(path)] *)
Definition os_path_exists (path : string) : M bool :=
  λ m, (inr (bool_decide (is_Some (files (now m) !! path))), m).

(** The bytes a [FileResponse] for [path] streams. *)
Definition file_bytes (path : string) : M (list Byte.byte) :=
  λ m, match files (now m) !! path with
       | Some b => (inr b, m)
       | None => (inl (FileNotFoundError path), m)
       end.

(** ** The handlers *)

Definition get_current_user (token : string) : M User.t :=
  user ← USERS_get token;
  match user with
  | None => raise (HTTPException 401 "Invalid authentication token.")
  | Some u => ret u
  end.

Definition get_user_by_id (user_id : string) : M User.t :=
  user ← USERS_get user_id;
  match user with
  | None => raise (HTTPException 404 "User not found.")
  | Some u => ret u
  end.

Definition accepted_exts : list string := [".png"; ".jpg"; ".jpeg"].

(** Lines 109-110: [ext] and [safe_ext]. *)
Definition safe_ext (file : UploadFile.t) : string :=
  let ext := Py.lower (snd (Py.splitext (UploadFile.filename file))) in
  if bool_decide (ext ∈ accepted_exts) then ext
  else if bool_decide (UploadFile.content_type file = Some "image/jpeg")
       then ".jpg" else ".png".

(** Line 111; [uuid4_hex] is the value of [uuid4().hex] drawn by this
    request. *)
Definition new_filename (current_user : User.t) (uuid4_hex : string)
    (file : UploadFile.t) : string :=
  User.id current_user +:+ "_" +:+ uuid4_hex +:+ safe_ext file.

Definition content_type_allowed (file : UploadFile.t) : bool :=
  match UploadFile.content_type file with
  | Some ct => bool_decide (ct ∈ ALLOWED_MIME_TYPES)
  | None => false
  end.

Definition upload_avatar (file : UploadFile.t) (current_user : User.t)
    (uuid4_hex : string) : M AvatarUploadResponse.t :=
  if negb (content_type_allowed file) then
    raise (HTTPException 400 "Only PNG and JPEG images are allowed.")
  else
    let contents := UploadFile.contents file in
    if Z.of_nat (length contents) >? MAX_AVATAR_SIZE then
      raise (HTTPException 413 "Avatar image is too large.")
    else
      let filename := new_filename current_user uuid4_hex file in
      let file_path := Py.os_path_join AVATAR_DIR filename in
      record ← USERS_getitem (User.id current_user);
      let old_filename := User.avatar_filename record in
      (match old_filename with
       | Some old =>
           if Py.truthy old_filename
           then try_except_pass (os_remove (Py.os_path_join AVATAR_DIR old))
           else ret tt
       | None => ret tt
       end);;
      aiofiles_write file_path contents;;
      USERS_set_avatar_filename (User.id current_user) filename;;
      ret {| AvatarUploadResponse.message := "Avatar uploaded successfully.";
             AvatarUploadResponse.avatar_url :=
               "/users/" +:+ User.id current_user +:+ "/avatar";
             AvatarUploadResponse.user_id := User.id current_user |}.

(** [POST /users/me/avatar]: the dependency [get_current_user] is resolved
    from the bearer token, then the handler runs. *)
Definition post_users_me_avatar (token : string) (file : UploadFile.t)
    (uuid4_hex : string) : M AvatarUploadResponse.t :=
  current_user ← get_current_user token;
  upload_avatar file current_user uuid4_hex.

Definition get_user_avatar (user_id : string) : M FileResponse.t :=
  user ← get_user_by_id user_id;
  let filename := User.avatar_filename user in
  match filename with
  | Some fname =>
      if negb (Py.truthy filename) then
        raise (HTTPException 404 "User has no avatar.")
      else
        let file_path := Py.os_path_join AVATAR_DIR fname in
        present ← os_path_exists file_path;
        if negb present then
          raise (HTTPException 404 "Avatar file not found.")
        else
          let mimetype :=
            if Py.endswith fname ".png" then "image/png" else "image/jpeg" in
          (* Line 155 sets a Content-Disposition header on the injected
             [response] object.  The handler then returns a response of its
             own, so that object and its header are dropped: the line has
             no part in the value returned. *)
          body ← file_bytes file_path;
          ret {| FileResponse.path := file_path;
                 FileResponse.media_type := mimetype;
                 FileResponse.filename := fname;
                 FileResponse.body := body |}
  | None => raise (HTTPException 404 "User has no avatar.")
  end.

(** [N] sequential upload requests with the same bearer token. *)
Fixpoint upload_sequence (token : string) (ups : list (UploadFile.t * string))
  : M unit :=
  match ups with
  | [] => ret tt
  | (file, uuid4_hex) :: rest =>
      post_users_me_avatar token file uuid4_hex;;
      upload_sequence token rest
  end.

(** ** Names the specification gives to the failures *)

Definition Unauthenticated := HTTPException 401 "Invalid authentication token.".
Definition InvalidMediaType := HTTPException 400 "Only PNG and JPEG images are allowed.".
Definition PayloadTooLarge := HTTPException 413 "Avatar image is too large.".
Definition UserNotFound := HTTPException 404 "User not found.".
Definition NoAvatarSet := HTTPException 404 "User has no avatar.".
Definition BlobMissing := HTTPException 404 "Avatar file not found.".

(** ** Notions used in the statements *)

Definition avatar_path (filename : string) : string :=
  Py.os_path_join AVATAR_DIR filename.

(** The path of the file the handler tries to remove: the one the user's
    record points to, when that pointer is truthy. *)
Definition old_path (record : User.t) : option string :=
  match User.avatar_filename record with
  | Some old => if Py.truthy (Some old) then Some (avatar_path old) else None
  | None => None
  end.

Definition files_after_remove (record : User.t)
    (fs : gmap string (list Byte.byte)) : gmap string (list Byte.byte) :=
  match old_path record with
  | Some p => delete p fs
  | None => fs
  end.

(** The removal is an effect only when the file is there; otherwise
    [os.remove] raises and the exception is swallowed. *)
Definition remove_effects (record : User.t) (s : Store) : list (Effect * Store) :=
  match old_path record with
  | Some p =>
      match files s !! p with
      | Some _ => [(OsRemove p, mkStore (USERS s) (delete p (files s)))]
      | None => []
      end
  | None => []
  end.

Definition store_after_write (record : User.t) (path : string)
    (contents : list Byte.byte) (s : Store) : Store :=
  mkStore (USERS s) (<[ path := contents ]> (files_after_remove record (files s))).

Definition store_after_upload (record : User.t) (key filename : string)
    (contents : list Byte.byte) (s : Store) : Store :=
  mkStore
    (<[ key := User.with_avatar_filename record (Some filename) ]> (USERS s))
    (<[ avatar_path filename := contents ]> (files_after_remove record (files s))).

Definition upload_response (current_user : User.t) : AvatarUploadResponse.t :=
  {| AvatarUploadResponse.message := "Avatar uploaded successfully.";
     AvatarUploadResponse.avatar_url :=
       "/users/" +:+ User.id current_user +:+ "/avatar";
     AvatarUploadResponse.user_id := User.id current_user |}.

(** The extension of the original file name, lowered (line 109). *)
Definition original_ext (file : UploadFile.t) : string :=
  Py.lower (snd (Py.splitext (UploadFile.filename file))).

(** The machine a successful upload ends in (see [upload_avatar_success]). *)
Definition machine_after_upload (record current_user : User.t)
    (uuid4_hex : string) (file : UploadFile.t) (m : Machine) : Machine :=
  let filename := new_filename current_user uuid4_hex file in
  let contents := UploadFile.contents file in
  {| now := store_after_upload record (User.id current_user) filename contents (now m);
     past := past m ++ remove_effects record (now m) ++
             [ (FileWrite (avatar_path filename) contents,
                store_after_write record (avatar_path filename) contents (now m));
               (SetAvatarFilename (User.id current_user) filename,
                store_after_upload record (User.id current_user) filename
                  contents (now m)) ] |}.

(** The pointer of [user_id], when set, names a file that is in storage. *)
Definition pointer_valid (s : Store) (user_id : string) : Prop :=
  ∀ user fname,
    USERS s !! user_id = Some user →
    User.avatar_filename user = Some fname →
    is_Some (files s !! avatar_path fname).

(** [name] has the form the handler gives to the files of user [uid]:
    the id, an underscore, a token of 32 characters (the length of
    [uuid4().hex]) and an accepted extension. *)
Definition named_for (uid name : string) : Prop :=
  ∃ tok ext,
    name = uid +:+ "_" +:+ tok +:+ ext ∧
    String.length tok = 32%nat ∧
    ext ∈ accepted_exts.

(** Every record is stored under its own id, and a pointer that is set
    names a file of that user. *)
Definition directory_ok (s : Store) : Prop :=
  ∀ key user,
    USERS s !! key = Some user →
    User.id user = key ∧
    ∀ fname, User.avatar_filename user = Some fname → named_for key fname.

Definition names_of (u : User.t) (ups : list (UploadFile.t * string)) : list string :=
  map (λ up, new_filename u up.2 up.1) ups.

(** The names the pointer was set to along a trace, oldest first. *)
Definition pointer_writes (tr : list (Effect * Store)) : list string :=
  omap (λ es, match es.1 with
              | SetAvatarFilename _ fname => Some fname
              | _ => None
              end) tr.

Definition pointer_of (s : Store) (user_id : string) : option string :=
  USERS s !! user_id ≫= User.avatar_filename.

(** ** The server *)

(** The two routes of the application: [POST /users/me/avatar] with its
    bearer token and multipart file, and [GET /users/{user_id}/avatar]. *)
Inductive Request :=
| PostAvatar (token : string) (file : UploadFile.t) (uuid4_hex : string)
| GetAvatar (user_id : string).

Inductive Response :=
| Created (r : AvatarUploadResponse.t)
| Image (r : FileResponse.t).

Definition handle (rq : Request) : M Response :=
  match rq with
  | PostAvatar token file uuid4_hex =>
      r ← post_users_me_avatar token file uuid4_hex; mret (Created r)
  | GetAvatar user_id =>
      r ← get_user_avatar user_id; mret (Image r)
  end.

(** Requests served one at a time: each request runs to its end before the
    next one starts.  An exception ends the request it was raised in, not
    the server: the next request starts from the store the failed one
    left.  The application can also start a request while an upload is
    suspended at the awaits of lines 123-124, between the removal of the
    old file and the update of the pointer; [serve] does not describe
    those runs.  The stores such a request can see are the ones recorded
    in the trace of the upload. *)
Fixpoint serve (rqs : list Request) (m : Machine)
  : list (Exception + Response) * Machine :=
  match rqs with
  | [] => ([], m)
  | rq :: rest =>
      let (r, m1) := handle rq m in
      let (rs, m') := serve rest m1 in
      (r :: rs, m')
  end.

(** The token of an upload request has the length of [uuid4().hex]. *)
Definition request_ok (rq : Request) : Prop :=
  match rq with
  | PostAvatar _ _ uuid4_hex => String.length uuid4_hex = 32%nat
  | GetAvatar _ => True
  end.

(** Every file in storage is the one some record points to. *)
Definition no_orphans (s : Store) : Prop :=
  ∀ p, is_Some (files s !! p) →
    ∃ key user fname,
      USERS s !! key = Some user ∧
      User.avatar_filename user = Some fname ∧
      p = avatar_path fname.

Definition slash_free (s : string) : Prop :=
  "/"%char ∉ list_ascii_of_string s.

(** ** The extension of a file name, in the words of the specification *)

(** [ext] is the extension of the file name [name], and [root] what comes
    before it: [ext] is the last period of the name and what follows it,
    the period lies in the last path component, and before it that
    component has a character other than a period (a name such as
    [.profile] has no extension).  This is stated on the name itself, and
    does not use [Py.splitext]. *)
Definition is_extension_of (name root ext : string) : Prop :=
  name = root +:+ ext ∧
  ∃ rest r1 c r2,
    ext = String "." rest ∧
    ("."%char ∉ list_ascii_of_string rest) ∧
    ("/"%char ∉ list_ascii_of_string rest) ∧
    root = r1 +:+ String c r2 ∧
    c ≠ "."%char ∧ c ≠ "/"%char ∧
    ("/"%char ∉ list_ascii_of_string r2).

(** [x] and [y] are the same character, or the upper-case and the
    lower-case form of the same letter. *)
Definition same_letter (x y : ascii) : Prop :=
  x = y ∨
  ((65 ≤ N_of_ascii x)%N ∧ (N_of_ascii x ≤ 90)%N ∧
   N_of_ascii y = (N_of_ascii x + 32)%N) ∨
  ((65 ≤ N_of_ascii y)%N ∧ (N_of_ascii y ≤ 90)%N ∧
   N_of_ascii x = (N_of_ascii y + 32)%N).

(** Equality of strings up to the case of their letters.  It does not
    use [Py.lower]. *)
Inductive eq_ignoring_case : string → string → Prop :=
| eq_ignoring_case_nil : eq_ignoring_case "" ""
| eq_ignoring_case_cons x y a b :
    same_letter x y → eq_ignoring_case a b →
    eq_ignoring_case (String x a) (String y b).

(** The extension of the original file name of [file] is, compared
    without regard to case, the accepted extension [acc]. *)
Definition accepted_extension_of (file : UploadFile.t) (acc : string) : Prop :=
  acc ∈ accepted_exts ∧
  ∃ root ext,
    is_extension_of (UploadFile.filename file) root ext ∧
    eq_ignoring_case ext acc.

(** ** Concrete requests and machines used in the examples *)

Definition hex1 : string := "0123456789abcdef0123456789abcdef".
Definition hex2 : string := "fedcba9876543210fedcba9876543210".

Definition png_file : UploadFile.t :=
  UploadFile.mk "pic.PNG" (Some "image/png") [Byte.x89; Byte.x50; Byte.x4e; Byte.x47].
Definition jpeg_file : UploadFile.t :=
  UploadFile.mk "holiday" (Some "image/jpeg") [Byte.xff; Byte.xd8; Byte.xff].
Definition gif_file : UploadFile.t :=
  UploadFile.mk "anim.gif" (Some "image/gif") [Byte.x47; Byte.x49; Byte.x46].

Definition alice : User.t := User.mk "u1" "alice" None.

(** The machine at start-up, with an empty avatar directory. *)
Definition m_initial : Machine := mkMachine (mkStore USERS_initial ∅) [].

(** Payloads above the ceiling, built without enumerating their bytes. *)
Definition oversized_gif : UploadFile.t :=
  UploadFile.mk "big.gif" (Some "image/gif") (replicate (Z.to_nat 3000000) Byte.x00).
Definition oversized_jpeg : UploadFile.t :=
  UploadFile.mk "big.jpg" (Some "image/jpeg") (replicate (Z.to_nat 3000000) Byte.x00).
Definition ceiling_png : UploadFile.t :=
  UploadFile.mk "max.png" (Some "image/png") (replicate (Z.to_nat 2097152) Byte.x00).

(** A store whose directory points to a file that is not in storage. *)
Definition m_stale : Machine :=
  mkMachine
    (mkStore (<[ "u1" := User.mk "u1" "alice" (Some "u1_gone.png") ]> USERS_initial) ∅)
    [].

Definition mislabelled_png : UploadFile.t :=
  UploadFile.mk "cat.jpg" (Some "image/png") [Byte.x89; Byte.x50; Byte.x4e; Byte.x47].

(** The machine after alice's first upload. *)
Definition m_with_avatar : Machine :=
  snd (post_users_me_avatar "u1" png_file hex1 m_initial).

Definition first_name : string := new_filename alice hex1 png_file.

Definition two_uploads : list (UploadFile.t * string) :=
  [(png_file, hex1); (jpeg_file, hex2)].

(** A session: alice uploads, bob's avatar is asked for, bob and alice
    upload, an unknown caller and a GIF are turned away, alice's avatar is
    asked for. *)
Definition a_session : list Request :=
  [ PostAvatar "u1" png_file hex1;
    GetAvatar "u2";
    PostAvatar "u2" jpeg_file hex1;
    PostAvatar "u1" jpeg_file hex2;
    PostAvatar "u3" png_file hex2;
    PostAvatar "u2" gif_file hex2;
    GetAvatar "u1" ].

(** An upload whose file name tries to leave the avatar directory. *)
Definition traversal_file : UploadFile.t :=
  UploadFile.mk "../../etc/cron.d/job.PNG" (Some "image/jpeg") [Byte.xff; Byte.xd8].

(** A file whose name says PNG, in upper case, and whose declared media
    type says JPEG; and a PNG under a name with a dot in a directory only. *)
Definition upper_png_as_jpeg : UploadFile.t :=
  UploadFile.mk "pic.PNG" (Some "image/jpeg") [Byte.xff; Byte.xd8].
Definition dotted_directory_png : UploadFile.t :=
  UploadFile.mk "v1.jpg/readme" (Some "image/png") [Byte.x89; Byte.x50].
(** A JPEG under a name that is a period and letters only. *)
Definition hidden_name_jpeg : UploadFile.t :=
  UploadFile.mk ".png" (Some "image/jpeg") [Byte.xff; Byte.xd8].

(** * Proofs *)

(** Unfolds a handler down to the primitive operations on the machine. *)
Ltac unfold_handlers :=
  unfold post_users_me_avatar, upload_avatar, get_user_avatar,
    get_current_user, get_user_by_id, USERS_get, USERS_getitem,
    USERS_set_avatar_filename, os_remove, aiofiles_write, os_path_exists,
    file_bytes, try_except_pass, perform,
    mbind, M_bind, bind, mret, M_ret, ret, raise in *.

(** ** Basic facts about the model *)

Lemma avatar_path_unfold b :
  avatar_path b = if Py.startswith b "/" then b else "./avatars/" +:+ b.
Proof. reflexivity. Qed.

Lemma startswith_slash_cons c b :
  Py.startswith (String c b) "/" = if ascii_dec "/" c then true else false.
Proof.
  unfold Py.startswith, String.prefix.
  destruct (ascii_dec "/" c); [destruct b|]; reflexivity.
Qed.

Lemma avatar_path_inj b b' : avatar_path b = avatar_path b' → b = b'.
Proof.
  rewrite !avatar_path_unfold.
  destruct b as [|c b], b' as [|c' b']; rewrite ?startswith_slash_cons.
  - done.
  - destruct (ascii_dec "/" c') as [<-|]; intros [=]; done.
  - destruct (ascii_dec "/" c) as [<-|]; intros [=]; done.
  - destruct (ascii_dec "/" c) as [<-|], (ascii_dec "/" c') as [<-|];
      intros [=]; congruence.
Qed.

Lemma content_type_allowed_spec file :
  content_type_allowed file = true ↔
  UploadFile.content_type file = Some "image/jpeg" ∨
  UploadFile.content_type file = Some "image/png".
Proof.
  unfold content_type_allowed, ALLOWED_MIME_TYPES.
  destruct (UploadFile.content_type file) as [ct|].
  - rewrite bool_decide_eq_true, elem_of_union, !elem_of_singleton.
    split; [intros [-> | ->]; auto | intros [[= ->] | [= ->]]; auto].
  - split; [done | intros [|]; done].
Qed.

Lemma MAX_AVATAR_SIZE_value : MAX_AVATAR_SIZE = 2097152.
Proof. reflexivity. Qed.

(** * What one run of [upload_avatar] does *)

Section UploadRun.
Variables (file : UploadFile.t) (current_user : User.t) (uuid4_hex : string).
Variable m : Machine.

Let filename := new_filename current_user uuid4_hex file.
Let contents := UploadFile.contents file.

Lemma upload_avatar_invalid_type :
  content_type_allowed file = false →
  upload_avatar file current_user uuid4_hex m = (inl InvalidMediaType, m).
Proof. unfold_handlers. by intros ->. Qed.

Lemma upload_avatar_too_large :
  content_type_allowed file = true →
  Z.of_nat (length contents) > MAX_AVATAR_SIZE →
  upload_avatar file current_user uuid4_hex m = (inl PayloadTooLarge, m).
Proof.
  unfold_handlers. intros -> Hlen%Z.gtb_gt. subst contents.
  by rewrite Hlen.
Qed.

Lemma upload_avatar_key_error :
  content_type_allowed file = true →
  Z.of_nat (length contents) ≤ MAX_AVATAR_SIZE →
  USERS (now m) !! User.id current_user = None →
  upload_avatar file current_user uuid4_hex m
  = (inl (KeyError (User.id current_user)), m).
Proof.
  unfold_handlers. intros -> Hlen Hu. subst contents.
  destruct (Z.gtb_spec (Z.of_nat (length (UploadFile.contents file)))
              MAX_AVATAR_SIZE); [lia|].
  cbn [negb]. by rewrite Hu.
Qed.

(** The successful run: the trace gains the removal of the old file (when
    it was there), the write of the new one and the update of the pointer,
    in this order. *)
Lemma upload_avatar_success record :
  content_type_allowed file = true →
  Z.of_nat (length contents) ≤ MAX_AVATAR_SIZE →
  USERS (now m) !! User.id current_user = Some record →
  upload_avatar file current_user uuid4_hex m
  = (inr (upload_response current_user),
     {| now := store_after_upload record (User.id current_user) filename
                 contents (now m);
        past := past m ++ remove_effects record (now m) ++
                [ (FileWrite (avatar_path filename) contents,
                   store_after_write record (avatar_path filename) contents (now m));
                  (SetAvatarFilename (User.id current_user) filename,
                   store_after_upload record (User.id current_user) filename
                     contents (now m)) ] |}).
Proof.
  unfold_handlers. intros -> Hlen Hu. subst contents filename.
  destruct (Z.gtb_spec (Z.of_nat (length (UploadFile.contents file)))
              MAX_AVATAR_SIZE); [lia|].
  cbn [negb]. rewrite Hu.
  unfold store_after_upload, store_after_write, remove_effects,
    files_after_remove, old_path, upload_response, avatar_path.
  destruct (User.avatar_filename record) as [old|]; cbn [negb].
  - destruct (Py.truthy (Some old)); cbn [negb].
    + destruct (files (now m) !! Py.os_path_join AVATAR_DIR old) eqn:Hf;
        cbn [now past USERS files]; rewrite Hu.
      * rewrite <- !app_assoc. reflexivity.
      * rewrite (delete_id _ _ Hf), <- !app_assoc. reflexivity.
    + cbn [now past USERS files]. rewrite Hu, <- !app_assoc. reflexivity.
  - cbn [now past USERS files]. rewrite Hu, <- !app_assoc. reflexivity.
Qed.

End UploadRun.

(** * Upload: validation *)

(** A failing upload request leaves the machine as it found it. *)
Lemma upload_failure_machine token file uuid4_hex m e m' :
  post_users_me_avatar token file uuid4_hex m = (inl e, m') → m' = m.
Proof.
  unfold post_users_me_avatar, get_current_user, USERS_get.
  unfold mbind, M_bind, bind, mret, M_ret, ret, raise.
  destruct (USERS (now m) !! token) as [u|] eqn:Hu; [|by intros [= _ <-]].
  destruct (content_type_allowed file) eqn:Hct;
    [|rewrite upload_avatar_invalid_type by done; by intros [= _ <-]].
  destruct (Z.gtb_spec (Z.of_nat (length (UploadFile.contents file)))
              MAX_AVATAR_SIZE);
    [rewrite upload_avatar_too_large by (done || lia); by intros [= _ <-]|].
  destruct (USERS (now m) !! User.id u) as [r|] eqn:Hr.
  - by erewrite upload_avatar_success.
  - rewrite upload_avatar_key_error by done. by intros [= _ <-].
Qed.

(** C2: every failing upload request (bad credential, disallowed media
    type, oversized payload, or any other failure of the handler) performs
    no effect: the trace gains no entry, so no file is written or removed,
    and [USERS] and the files are unchanged. *)
Theorem upload_failure_no_mutation token file uuid4_hex m e m' :
  post_users_me_avatar token file uuid4_hex m = (inl e, m') →
  past m' = past m ∧ USERS (now m') = USERS (now m) ∧ files (now m') = files (now m).
Proof. intros ->%upload_failure_machine. done. Qed.

Lemma upload_failure_no_mutation_witness :
  fst (post_users_me_avatar "u1" gif_file hex1 m_initial) = inl InvalidMediaType ∧
  past (snd (post_users_me_avatar "u1" gif_file hex1 m_initial)) = past m_initial ∧
  USERS (now (snd (post_users_me_avatar "u1" gif_file hex1 m_initial)))
  = USERS (now m_initial) ∧
  files (now (snd (post_users_me_avatar "u1" gif_file hex1 m_initial)))
  = files (now m_initial).
Proof.
  split; [vm_compute; reflexivity|].
  apply (upload_failure_no_mutation "u1" gif_file hex1 m_initial InvalidMediaType).
  vm_compute; reflexivity.
Defined.

Lemma post_authenticated token u file uuid4_hex m :
  USERS (now m) !! token = Some u →
  post_users_me_avatar token file uuid4_hex m = upload_avatar file u uuid4_hex m.
Proof.
  intros Hu. unfold post_users_me_avatar, get_current_user, USERS_get.
  unfold mbind, M_bind, bind, mret, M_ret, ret. by rewrite Hu.
Qed.

Lemma post_unauthenticated token file uuid4_hex m :
  USERS (now m) !! token = None →
  post_users_me_avatar token file uuid4_hex m = (inl Unauthenticated, m).
Proof.
  intros Hu. unfold post_users_me_avatar, get_current_user, USERS_get.
  unfold mbind, M_bind, bind, raise. by rewrite Hu.
Qed.

Lemma content_type_not_allowed file :
  UploadFile.content_type file ≠ Some "image/jpeg" →
  UploadFile.content_type file ≠ Some "image/png" →
  content_type_allowed file = false.
Proof.
  intros H1 H2. apply not_true_is_false.
  intros [?|?]%content_type_allowed_spec; done.
Qed.

Lemma u1_is_alice : USERS (now m_initial) !! "u1" = Some alice.
Proof. vm_compute. reflexivity. Qed.

(** C3: for an authenticated caller the media type is checked before the
    size.  A declared media type other than image/jpeg and image/png is
    rejected with [InvalidMediaType] whatever the size of the payload, and
    a payload of an accepted type that is larger than the ceiling is
    rejected with [PayloadTooLarge]. *)
Theorem type_check_precedes_size_check token u file uuid4_hex m :
  USERS (now m) !! token = Some u →
  (UploadFile.content_type file ≠ Some "image/jpeg" →
   UploadFile.content_type file ≠ Some "image/png" →
   post_users_me_avatar token file uuid4_hex m = (inl InvalidMediaType, m)) ∧
  (UploadFile.content_type file = Some "image/jpeg" ∨
   UploadFile.content_type file = Some "image/png" →
   Z.of_nat (length (UploadFile.contents file)) > MAX_AVATAR_SIZE →
   post_users_me_avatar token file uuid4_hex m = (inl PayloadTooLarge, m)).
Proof.
  intros Hu. rewrite (post_authenticated _ _ _ _ _ Hu). split.
  - intros H1 H2. apply upload_avatar_invalid_type.
    by apply content_type_not_allowed.
  - intros Hct%content_type_allowed_spec Hlen.
    by apply upload_avatar_too_large.
Qed.

Lemma type_check_precedes_size_check_witness :
  post_users_me_avatar "u1" oversized_gif hex1 m_initial
  = (inl InvalidMediaType, m_initial) ∧
  post_users_me_avatar "u1" oversized_jpeg hex1 m_initial
  = (inl PayloadTooLarge, m_initial).
Proof.
  split.
  - apply (type_check_precedes_size_check "u1" alice oversized_gif hex1 m_initial
             u1_is_alice); discriminate.
  - apply (type_check_precedes_size_check "u1" alice oversized_jpeg hex1 m_initial
             u1_is_alice).
    + left. reflexivity.
    + unfold oversized_jpeg, UploadFile.contents, MAX_AVATAR_SIZE.
      rewrite length_replicate. lia.
Defined.

(** C6: the ceiling is 2 * 1024 * 1024 = 2097152 bytes and the comparison is
    strict.  For an authenticated caller and an accepted media type the
    request fails with [PayloadTooLarge] exactly when the payload has more
    than 2097152 bytes; a payload of at most 2097152 bytes, in particular
    one of exactly that length, passes the size check, and is uploaded when
    the caller's id is a key of [USERS]. *)
Theorem size_ceiling_is_strict token u file uuid4_hex m :
  USERS (now m) !! token = Some u →
  UploadFile.content_type file = Some "image/jpeg" ∨
  UploadFile.content_type file = Some "image/png" →
  MAX_AVATAR_SIZE = 2 * 1024 * 1024 ∧
  (fst (post_users_me_avatar token file uuid4_hex m) = inl PayloadTooLarge ↔
   Z.of_nat (length (UploadFile.contents file)) > 2097152) ∧
  (Z.of_nat (length (UploadFile.contents file)) ≤ 2097152 →
   is_Some (USERS (now m) !! User.id u) →
   fst (post_users_me_avatar token file uuid4_hex m) = inr (upload_response u)).
Proof.
  intros Hu Hct%content_type_allowed_spec.
  rewrite (post_authenticated _ _ _ _ _ Hu), <- MAX_AVATAR_SIZE_value.
  split; [reflexivity|]. split; [split|].
  - intros Hfail.
    destruct (Z.gtb_spec (Z.of_nat (length (UploadFile.contents file)))
                MAX_AVATAR_SIZE) as [|Hle]; [lia|].
    destruct (USERS (now m) !! User.id u) as [record|] eqn:Hr.
    + rewrite (upload_avatar_success _ _ _ _ _ Hct Hle Hr) in Hfail. discriminate.
    + rewrite (upload_avatar_key_error _ _ _ _ Hct Hle Hr) in Hfail. discriminate.
  - intros Hlen. by rewrite upload_avatar_too_large.
  - intros Hle [record Hr]. by rewrite (upload_avatar_success _ _ _ _ _ Hct Hle Hr).
Qed.

Lemma size_ceiling_is_strict_witness :
  Z.of_nat (length (UploadFile.contents ceiling_png)) = 2097152 ∧
  fst (post_users_me_avatar "u1" ceiling_png hex1 m_initial)
  = inr (upload_response alice) ∧
  fst (post_users_me_avatar "u1" oversized_jpeg hex1 m_initial)
  = inl PayloadTooLarge.
Proof.
  assert (Hc : Z.of_nat (length (UploadFile.contents ceiling_png)) = 2097152).
  { unfold ceiling_png, UploadFile.contents. rewrite length_replicate. lia. }
  assert (Ho : Z.of_nat (length (UploadFile.contents oversized_jpeg)) > 2097152).
  { unfold oversized_jpeg, UploadFile.contents. rewrite length_replicate. lia. }
  split; [exact Hc|]. split.
  - apply (size_ceiling_is_strict "u1" alice ceiling_png hex1 m_initial
             u1_is_alice); [right; reflexivity | lia |].
    exists alice. exact u1_is_alice.
  - apply (size_ceiling_is_strict "u1" alice oversized_jpeg hex1 m_initial
             u1_is_alice); [left; reflexivity | exact Ho].
Defined.

(** * Upload: the stored name *)

Lemma safe_ext_original file :
  original_ext file ∈ accepted_exts → safe_ext file = original_ext file.
Proof.
  intros Hin. unfold safe_ext, original_ext in *.
  by rewrite bool_decide_eq_true_2.
Qed.

Lemma safe_ext_derived file :
  original_ext file ∉ accepted_exts →
  safe_ext file
  = if bool_decide (UploadFile.content_type file = Some "image/jpeg")
    then ".jpg" else ".png".
Proof.
  intros Hin. unfold safe_ext, original_ext in *.
  by rewrite bool_decide_eq_false_2.
Qed.

Lemma safe_ext_accepted file : safe_ext file ∈ accepted_exts.
Proof.
  destruct (decide (original_ext file ∈ accepted_exts)) as [Hin|Hin].
  - by rewrite safe_ext_original.
  - rewrite safe_ext_derived by done. unfold accepted_exts.
    case_bool_decide; set_solver.
Qed.

Example splitext_upper : Py.splitext "pic.PNG" = ("pic", ".PNG").
Proof. reflexivity. Qed.
Example splitext_leading_dot : Py.splitext ".png" = (".png", "").
Proof. reflexivity. Qed.
Example splitext_last_dot : Py.splitext "archive.tar.jpeg" = ("archive.tar", ".jpeg").
Proof. reflexivity. Qed.
Example splitext_dot_in_directory : Py.splitext "v1.2/readme" = ("v1.2/readme", "").
Proof. reflexivity. Qed.
Example safe_ext_png_file : safe_ext png_file = ".png".
Proof. reflexivity. Qed.
Example safe_ext_jpeg_file : safe_ext jpeg_file = ".jpg".
Proof. reflexivity. Qed.
Example safe_ext_hidden_name :
  safe_ext (UploadFile.mk ".png" (Some "image/jpeg") []) = ".jpg".
Proof. reflexivity. Qed.
Example safe_ext_other_extension :
  safe_ext (UploadFile.mk "scan.bmp" (Some "image/png") []) = ".png".
Proof. reflexivity. Qed.

(** * Facts about strings *)

Section StringFacts.
Implicit Types a b c : string.

Lemma string_app_nil b : "" +:+ b = b.
Proof. reflexivity. Qed.

Lemma string_app_cons x a b : String x a +:+ b = String x (a +:+ b).
Proof. reflexivity. Qed.

Lemma string_app_assoc a b c : (a +:+ b) +:+ c = a +:+ b +:+ c.
Proof.
  induction a as [|x a IH]; [done|].
  by rewrite !string_app_cons, IH.
Qed.

Lemma string_length_app a b :
  String.length (a +:+ b) = (String.length a + String.length b)%nat.
Proof.
  induction a as [|x a IH]; [done|].
  rewrite string_app_cons. cbn. by rewrite IH.
Qed.

Lemma substring_all b : String.substring 0 (String.length b) b = b.
Proof. induction b as [|x b IH]; cbn; [done | by rewrite IH]. Qed.

Lemma substring_app_suffix a b :
  String.substring (String.length a) (String.length b) (a +:+ b) = b.
Proof.
  induction a as [|x a IH]; [apply substring_all|].
  rewrite string_app_cons. cbn. done.
Qed.

Lemma endswith_app a b suf :
  String.length b = String.length suf →
  Py.endswith (a +:+ b) suf = String.eqb b suf.
Proof.
  intros Hlen. unfold Py.endswith.
  rewrite string_length_app, <- Hlen.
  replace (String.length b <=? String.length a + String.length b)%nat
    with true by (symmetry; apply Nat.leb_le; lia).
  replace (String.length a + String.length b - String.length b)%nat
    with (String.length a) by lia.
  by rewrite substring_app_suffix.
Qed.

Lemma string_to_list_app a b :
  list_ascii_of_string (a +:+ b)
  = list_ascii_of_string a ++ list_ascii_of_string b.
Proof.
  induction a as [|x a IH]; [done|].
  rewrite string_app_cons. cbn. by rewrite IH.
Qed.

Lemma string_to_list_inj a b :
  list_ascii_of_string a = list_ascii_of_string b → a = b.
Proof.
  intros H. rewrite <- (string_of_list_ascii_of_string a), H.
  apply string_of_list_ascii_of_string.
Qed.

Lemma string_to_list_length a :
  length (list_ascii_of_string a) = String.length a.
Proof. induction a as [|x a IH]; cbn; [done | by rewrite IH]. Qed.

(** Two concatenations with tails of the same length agree part by
    part. *)
Lemma string_app_inj_tail a a' b b' :
  String.length b = String.length b' →
  a +:+ b = a' +:+ b' → a = a' ∧ b = b'.
Proof.
  intros Hlen Heq. apply (f_equal list_ascii_of_string) in Heq.
  rewrite !string_to_list_app in Heq.
  apply app_inj_2 in Heq as [Ha Hb];
    [| by rewrite !string_to_list_length].
  split; by apply string_to_list_inj.
Qed.

Lemma string_app_nonempty a b : b ≠ "" → a +:+ b ≠ "".
Proof. destruct a, b; done. Qed.

End StringFacts.

(** The media type the retrieval handler infers from a stored name. *)
Lemma endswith_png_of_name stem e :
  e ∈ accepted_exts →
  Py.endswith (stem +:+ e) ".png" = String.eqb e ".png".
Proof.
  unfold accepted_exts. rewrite !elem_of_cons, elem_of_nil.
  intros [-> | [-> | [-> | []]]].
  - by rewrite endswith_app.
  - by rewrite endswith_app.
  - change ".jpeg" with ("." +:+ "jpeg").
    rewrite <- string_app_assoc. by rewrite endswith_app.
Qed.

Lemma new_filename_truthy u uuid4_hex file :
  Py.truthy (Some (new_filename u uuid4_hex file)) = true.
Proof.
  unfold Py.truthy, new_filename. apply negb_true_iff, String.eqb_neq.
  apply string_app_nonempty. done.
Qed.

(** * Retrieval *)

Section Retrieve.
Variables (user_id : string) (m : Machine).

Lemma get_user_avatar_unknown :
  USERS (now m) !! user_id = None →
  get_user_avatar user_id m = (inl UserNotFound, m).
Proof. unfold_handlers. by intros ->. Qed.

Lemma get_user_avatar_unset user :
  USERS (now m) !! user_id = Some user →
  Py.truthy (User.avatar_filename user) = false →
  get_user_avatar user_id m = (inl NoAvatarSet, m).
Proof.
  unfold_handlers. intros -> Hf.
  destruct (User.avatar_filename user); [by rewrite Hf | done].
Qed.

Lemma get_user_avatar_missing user fname :
  USERS (now m) !! user_id = Some user →
  User.avatar_filename user = Some fname →
  fname ≠ "" →
  files (now m) !! avatar_path fname = None →
  get_user_avatar user_id m = (inl BlobMissing, m).
Proof.
  unfold_handlers. unfold avatar_path. intros -> -> Hne%String.eqb_neq Hf.
  cbn [Py.truthy]. rewrite Hne. cbn [negb]. rewrite Hf.
  rewrite bool_decide_eq_false_2; [done | by intros [? [=]]].
Qed.

Lemma get_user_avatar_found user fname bytes :
  USERS (now m) !! user_id = Some user →
  User.avatar_filename user = Some fname →
  fname ≠ "" →
  files (now m) !! avatar_path fname = Some bytes →
  get_user_avatar user_id m
  = (inr {| FileResponse.path := avatar_path fname;
            FileResponse.media_type :=
              if Py.endswith fname ".png" then "image/png" else "image/jpeg";
            FileResponse.filename := fname;
            FileResponse.body := bytes |}, m).
Proof.
  unfold_handlers. unfold avatar_path. intros -> -> Hne%String.eqb_neq Hf.
  cbn [Py.truthy]. rewrite Hne. cbn [negb]. rewrite Hf.
  rewrite bool_decide_eq_true_2 by eauto. cbn [negb]. by rewrite Hf.
Qed.

End Retrieve.

(** A successful upload request passed every check, and ends in
    [machine_after_upload]. *)
Lemma post_success_inv token u file uuid4_hex m resp m' :
  USERS (now m) !! token = Some u →
  post_users_me_avatar token file uuid4_hex m = (inr resp, m') →
  content_type_allowed file = true ∧
  Z.of_nat (length (UploadFile.contents file)) ≤ MAX_AVATAR_SIZE ∧
  ∃ record,
    USERS (now m) !! User.id u = Some record ∧
    resp = upload_response u ∧
    m' = machine_after_upload record u uuid4_hex file m.
Proof.
  intros Hu. rewrite (post_authenticated _ _ _ _ _ Hu).
  destruct (content_type_allowed file) eqn:Hct;
    [|by rewrite upload_avatar_invalid_type].
  destruct (Z.gtb_spec (Z.of_nat (length (UploadFile.contents file)))
              MAX_AVATAR_SIZE) as [|Hle];
    [by rewrite upload_avatar_too_large by (done || lia)|].
  destruct (USERS (now m) !! User.id u) as [record|] eqn:Hr;
    [|by rewrite upload_avatar_key_error].
  rewrite (upload_avatar_success _ _ _ _ _ Hct Hle Hr).
  intros [= <- <-]. split; [done|]. split; [done|]. by exists record.
Qed.

(** C8: retrieval fails in one of three ways, decided in this order: an
    unknown user id gives [UserNotFound]; a known user whose pointer is unset
    gives [NoAvatarSet]; a pointer that names a file absent from storage
    gives [BlobMissing].  The three failures are pairwise different, and
    retrieval has no other failure. *)
Theorem retrieve_failures user_id m :
  (UserNotFound ≠ NoAvatarSet ∧ UserNotFound ≠ BlobMissing ∧
   NoAvatarSet ≠ BlobMissing) ∧
  (USERS (now m) !! user_id = None →
   get_user_avatar user_id m = (inl UserNotFound, m)) ∧
  (∀ user, USERS (now m) !! user_id = Some user →
     User.avatar_filename user = None →
     get_user_avatar user_id m = (inl NoAvatarSet, m)) ∧
  (∀ user fname, USERS (now m) !! user_id = Some user →
     User.avatar_filename user = Some fname → fname ≠ "" →
     files (now m) !! avatar_path fname = None →
     get_user_avatar user_id m = (inl BlobMissing, m)) ∧
  (∀ e m', get_user_avatar user_id m = (inl e, m') →
     e = UserNotFound ∨ e = NoAvatarSet ∨ e = BlobMissing).
Proof.
  split; [repeat split; discriminate|].
  split; [apply get_user_avatar_unknown|].
  split; [intros user Hu Hp; apply (get_user_avatar_unset _ _ user Hu);
          by rewrite Hp|].
  split; [apply get_user_avatar_missing|].
  intros e m'.
  destruct (USERS (now m) !! user_id) as [user|] eqn:Hu;
    [|rewrite get_user_avatar_unknown by done; intros [= <- _]; auto].
  destruct (Py.truthy (User.avatar_filename user)) eqn:Ht;
    [|rewrite (get_user_avatar_unset _ _ user) by done; intros [= <- _]; auto].
  destruct (User.avatar_filename user) as [fname|] eqn:Hp; [|done].
  assert (fname ≠ "") as Hne
    by (apply String.eqb_neq; apply negb_true_iff in Ht; exact Ht).
  destruct (files (now m) !! avatar_path fname) as [bytes|] eqn:Hf.
  - by rewrite (get_user_avatar_found _ _ user fname bytes).
  - rewrite (get_user_avatar_missing _ _ user fname) by done.
    intros [= <- _]; auto.
Qed.

Lemma retrieve_failures_witness :
  get_user_avatar "u9" m_initial = (inl UserNotFound, m_initial) ∧
  get_user_avatar "u1" m_initial = (inl NoAvatarSet, m_initial) ∧
  get_user_avatar "u1" m_stale = (inl BlobMissing, m_stale).
Proof.
  split; [|split].
  - apply (retrieve_failures "u9" m_initial). vm_compute. reflexivity.
  - apply (retrieve_failures "u1" m_initial) with alice;
      [apply u1_is_alice | reflexivity].
  - apply (retrieve_failures "u1" m_stale)
      with (User.mk "u1" "alice" (Some "u1_gone.png")) "u1_gone.png";
      [vm_compute; reflexivity | reflexivity | discriminate | vm_compute; reflexivity].
Defined.

(** * Upload followed by retrieval *)

(** A PNG uploaded under a name ending in .jpg is stored with the extension
    .jpg, and retrieval then presents its bytes as image/jpeg, which is not
    the declared media type. *)
Lemma retrieve_media_type_mismatch :
  fst (post_users_me_avatar "u1" mislabelled_png hex1 m_initial)
  = inr (upload_response alice) ∧
  ∃ r, fst (get_user_avatar "u1"
              (snd (post_users_me_avatar "u1" mislabelled_png hex1 m_initial)))
       = inr r ∧
       FileResponse.body r = UploadFile.contents mislabelled_png ∧
       FileResponse.media_type r = "image/jpeg" ∧
       Some (FileResponse.media_type r) ≠ UploadFile.content_type mislabelled_png.
Proof.
  split; [vm_compute; reflexivity|].
  eexists. split; [vm_compute; reflexivity|].
  split; [reflexivity|]. split; [reflexivity|]. discriminate.
Qed.

(** C4 (amended): after a successful upload by an authenticated user,
    retrieval of that user returns exactly the uploaded bytes, under the
    stored name, with the media type inferred from the stored extension:
    image/png for .png, image/jpeg otherwise.  This is the declared media
    type when the original name has no accepted extension, or has one that
    agrees with the declared type. *)
Theorem upload_then_retrieve token u file uuid4_hex m resp m' :
  USERS (now m) !! token = Some u →
  post_users_me_avatar token file uuid4_hex m = (inr resp, m') →
  ∃ r,
    get_user_avatar (User.id u) m' = (inr r, m') ∧
    FileResponse.body r = UploadFile.contents file ∧
    FileResponse.filename r = new_filename u uuid4_hex file ∧
    FileResponse.media_type r
    = (if String.eqb (safe_ext file) ".png" then "image/png" else "image/jpeg") ∧
    (original_ext file ∉ accepted_exts →
     Some (FileResponse.media_type r) = UploadFile.content_type file) ∧
    (original_ext file = ".png" →
     UploadFile.content_type file = Some "image/png" →
     Some (FileResponse.media_type r) = UploadFile.content_type file) ∧
    (original_ext file = ".jpg" ∨ original_ext file = ".jpeg" →
     UploadFile.content_type file = Some "image/jpeg" →
     Some (FileResponse.media_type r) = UploadFile.content_type file).
Proof.
  intros Hu Hpost.
  destruct (post_success_inv _ _ _ _ _ _ _ Hu Hpost)
    as (Hct & Hlen & record & Hr & -> & ->).
  eexists. split.
  { eapply get_user_avatar_found with
      (fname := new_filename u uuid4_hex file).
    - cbn [machine_after_upload now USERS store_after_upload].
      apply lookup_insert_eq.
    - reflexivity.
    - pose proof (new_filename_truthy u uuid4_hex file) as Ht.
      apply negb_true_iff in Ht. by apply String.eqb_neq.
    - cbn [machine_after_upload now files store_after_upload].
      apply lookup_insert_eq. }
  cbn [FileResponse.body FileResponse.filename FileResponse.media_type].
  assert (Hmime : Py.endswith (new_filename u uuid4_hex file) ".png"
                  = String.eqb (safe_ext file) ".png").
  { unfold new_filename. rewrite <- !string_app_assoc.
    apply endswith_png_of_name, safe_ext_accepted. }
  rewrite Hmime. repeat split.
  - intros Hout. rewrite safe_ext_derived by done.
    apply content_type_allowed_spec in Hct as [-> | ->]; reflexivity.
  - intros Hext ->. rewrite safe_ext_original; rewrite Hext; [done|].
    unfold accepted_exts. set_solver.
  - intros [Hext | Hext] ->; (rewrite safe_ext_original; rewrite Hext; [done|]);
      unfold accepted_exts; set_solver.
Qed.

Lemma upload_then_retrieve_witness :
  ∃ r,
    get_user_avatar "u1" (snd (post_users_me_avatar "u1" png_file hex1 m_initial))
    = (inr r, snd (post_users_me_avatar "u1" png_file hex1 m_initial)) ∧
    FileResponse.body r = UploadFile.contents png_file ∧
    FileResponse.media_type r = "image/png".
Proof.
  destruct (upload_then_retrieve "u1" alice png_file hex1 m_initial
              (upload_response alice)
              (snd (post_users_me_avatar "u1" png_file hex1 m_initial))
              u1_is_alice)
    as (r & Hget & Hbody & _ & Hmime & _).
  - vm_compute. reflexivity.
  - exists r. split; [exact Hget|]. split; [exact Hbody|]. exact Hmime.
Defined.

(** * Order of the effects of an upload *)

Lemma m_with_avatar_pointer :
  USERS (now m_with_avatar) !! "u1" = Some (User.mk "u1" "alice" (Some first_name)).
Proof. vm_compute. reflexivity. Qed.

Lemma m_with_avatar_file :
  files (now m_with_avatar) !! avatar_path first_name
  = Some (UploadFile.contents png_file).
Proof. vm_compute. reflexivity. Qed.

(** When alice, who has an avatar, uploads again, the first effect of the
    request is the removal of her old file.  In the store this leaves, her
    pointer still names the old file, which is no longer in storage. *)
Lemma eviction_before_swap_dangling_pointer :
  pointer_valid (now m_with_avatar) "u1" ∧
  ∃ s rest,
    drop (length (past m_with_avatar))
      (past (snd (post_users_me_avatar "u1" jpeg_file hex2 m_with_avatar)))
    = (OsRemove (avatar_path first_name), s) :: rest ∧
    User.avatar_filename <$> USERS s !! "u1" = Some (Some first_name) ∧
    files s !! avatar_path first_name = None ∧
    ¬ pointer_valid s "u1".
Proof.
  split.
  { intros user fname Hu Hp. rewrite m_with_avatar_pointer in Hu.
    injection Hu as <-. injection Hp as <-.
    rewrite m_with_avatar_file. by eexists. }
  eexists _, _. split; [vm_compute; reflexivity|].
  split; [vm_compute; reflexivity|].
  split; [vm_compute; reflexivity|].
  intros Hvalid.
  destruct (Hvalid (User.mk "u1" "alice" (Some first_name)) first_name)
    as [bytes Hbytes]; [vm_compute; reflexivity | reflexivity |].
  vm_compute in Hbytes. discriminate.
Qed.

(** C1 (amended): when a user whose pointer names a stored file uploads
    successfully, the request performs exactly three effects, in this
    order: the old file is removed, the new file is written, the pointer
    is set to the new name.  The removal and the write leave [USERS] as it
    was.  In the final store the user's pointer is the new name and names a
    file in storage that holds the uploaded bytes. *)
Theorem eviction_precedes_write_and_swap
    token u record old file uuid4_hex m resp m' :
  USERS (now m) !! token = Some u →
  USERS (now m) !! User.id u = Some record →
  User.avatar_filename record = Some old →
  old ≠ "" →
  is_Some (files (now m) !! avatar_path old) →
  post_users_me_avatar token file uuid4_hex m = (inr resp, m') →
  let new := new_filename u uuid4_hex file in
  ∃ s1 s2,
    past m' = past m ++
      [ (OsRemove (avatar_path old), s1);
        (FileWrite (avatar_path new) (UploadFile.contents file), s2);
        (SetAvatarFilename (User.id u) new, now m') ] ∧
    USERS s1 = USERS (now m) ∧
    files s1 = delete (avatar_path old) (files (now m)) ∧
    USERS s2 = USERS (now m) ∧
    files s2 = <[ avatar_path new := UploadFile.contents file ]> (files s1) ∧
    User.avatar_filename <$> USERS (now m') !! User.id u = Some (Some new) ∧
    files (now m') !! avatar_path new = Some (UploadFile.contents file) ∧
    pointer_valid (now m') (User.id u).
Proof.
  intros Hu Hr Hold Hne [bytes Hbytes] Hpost new.
  destruct (post_success_inv _ _ _ _ _ _ _ Hu Hpost)
    as (_ & _ & record' & Hr' & _ & ->).
  assert (record' = record) as -> by congruence.
  assert (Hpath : old_path record = Some (avatar_path old)).
  { unfold old_path. rewrite Hold. cbn [Py.truthy].
    apply String.eqb_neq in Hne. by rewrite Hne. }
  eexists _, _. split.
  { cbn [machine_after_upload past now]. unfold remove_effects.
    rewrite Hpath, Hbytes. reflexivity. }
  cbn [USERS files machine_after_upload now store_after_write store_after_upload].
  unfold files_after_remove. rewrite Hpath, !lookup_insert_eq.
  repeat split.
  intros user fname Huser Hfname.
  cbn [USERS files store_after_upload] in Huser |- *.
  rewrite lookup_insert_eq in Huser.
  injection Huser as <-. injection Hfname as <-.
  rewrite lookup_insert_eq. by eexists.
Qed.

Lemma eviction_precedes_write_and_swap_witness :
  let new := new_filename alice hex2 jpeg_file in
  let m' := snd (post_users_me_avatar "u1" jpeg_file hex2 m_with_avatar) in
  ∃ s1 s2,
    past m' = past m_with_avatar ++
      [ (OsRemove (avatar_path first_name), s1);
        (FileWrite (avatar_path new) (UploadFile.contents jpeg_file), s2);
        (SetAvatarFilename "u1" new, now m') ] ∧
    files s1 = delete (avatar_path first_name) (files (now m_with_avatar)) ∧
    files (now m') !! avatar_path new = Some (UploadFile.contents jpeg_file) ∧
    pointer_valid (now m') "u1".
Proof.
  intros new m'.
  destruct (eviction_precedes_write_and_swap "u1"
              (User.mk "u1" "alice" (Some first_name))
              (User.mk "u1" "alice" (Some first_name))
              first_name jpeg_file hex2 m_with_avatar
              (upload_response alice) m')
    as (s1 & s2 & Hpast & _ & Hs1 & _ & _ & _ & Hfile & Hvalid).
  - exact m_with_avatar_pointer.
  - exact m_with_avatar_pointer.
  - reflexivity.
  - discriminate.
  - rewrite m_with_avatar_file. by eexists.
  - vm_compute. reflexivity.
  - exists s1, s2. split; [exact Hpast|]. split; [exact Hs1|].
    split; [exact Hfile | exact Hvalid].
Defined.

(** * Blob names *)

Lemma new_filename_named_for u uuid4_hex file :
  String.length uuid4_hex = 32%nat →
  named_for (User.id u) (new_filename u uuid4_hex file).
Proof.
  intros Hlen. exists uuid4_hex, (safe_ext file).
  split; [reflexivity|]. split; [done | apply safe_ext_accepted].
Qed.

Lemma string_app_inj_head a a' b b' :
  String.length a = String.length a' →
  a +:+ b = a' +:+ b' → a = a' ∧ b = b'.
Proof.
  intros Hlen Heq. apply (f_equal list_ascii_of_string) in Heq.
  rewrite !string_to_list_app in Heq.
  apply app_inj_1 in Heq as [Ha Hb];
    [| by rewrite !string_to_list_length].
  split; by apply string_to_list_inj.
Qed.

(** No accepted extension is the tail of a name that ends in another one. *)
Lemma accepted_ext_tail a a' e e' :
  e ∈ accepted_exts → e' ∈ accepted_exts →
  a +:+ e = a' +:+ e' → a = a' ∧ e = e'.
Proof.
  unfold accepted_exts. rewrite !elem_of_cons, !elem_of_nil.
  intros [-> | [-> | [-> | []]]] [-> | [-> | [-> | []]]] Heq;
    try (by apply string_app_inj_tail in Heq);
    try (by apply string_app_inj_tail in Heq as [_ [=]]).
  - change ".jpeg" with ("." +:+ "jpeg") in Heq.
    rewrite <- string_app_assoc in Heq.
    by apply string_app_inj_tail in Heq as [_ [=]].
  - change ".jpeg" with ("." +:+ "jpeg") in Heq.
    rewrite <- string_app_assoc in Heq.
    by apply string_app_inj_tail in Heq as [_ [=]].
  - change ".jpeg" with ("." +:+ "jpeg") in Heq.
    rewrite <- string_app_assoc in Heq.
    by apply string_app_inj_tail in Heq as [_ [=]].
  - change ".jpeg" with ("." +:+ "jpeg") in Heq.
    rewrite <- string_app_assoc in Heq.
    by apply string_app_inj_tail in Heq as [_ [=]].
Qed.

(** A name is the name of one user only. *)
Lemma named_for_inj uid uid' name :
  named_for uid name → named_for uid' name → uid = uid'.
Proof.
  intros (tok & ext & -> & Htok & Hext) (tok' & ext' & Heq & Htok' & Hext').
  rewrite <- !string_app_assoc in Heq.
  apply accepted_ext_tail in Heq as [Heq _]; [|done..].
  apply string_app_inj_tail in Heq as [Heq _]; [|congruence].
  by apply string_app_inj_tail in Heq as [Heq _].
Qed.

(** Names of one user with tokens of the same length differ when the
    tokens do. *)
Lemma new_filename_inj u hex hex' file file' :
  String.length hex = String.length hex' →
  new_filename u hex file = new_filename u hex' file' → hex = hex'.
Proof.
  unfold new_filename. intros Hlen Heq.
  rewrite <- !string_app_assoc in Heq.
  apply accepted_ext_tail in Heq as [Heq _]; [|apply safe_ext_accepted..].
  by apply string_app_inj_tail in Heq as [_ Heq].
Qed.

(** * The directory invariant *)

Lemma directory_ok_initial fs : directory_ok (mkStore USERS_initial fs).
Proof.
  intros key user. unfold USERS_initial. cbn [USERS].
  rewrite !lookup_insert, lookup_empty.
  repeat case_decide; intros [= <-]; subst; done.
Qed.

Lemma directory_ok_upload token file uuid4_hex m r m' :
  String.length uuid4_hex = 32%nat →
  directory_ok (now m) →
  post_users_me_avatar token file uuid4_hex m = (r, m') →
  directory_ok (now m').
Proof.
  intros Hlen Hok Hpost. destruct r as [e|resp].
  { by apply upload_failure_machine in Hpost as ->. }
  destruct (USERS (now m) !! token) as [u|] eqn:Hu;
    [|by rewrite post_unauthenticated in Hpost].
  destruct (post_success_inv _ _ _ _ _ _ _ Hu Hpost)
    as (_ & _ & record & Hr & _ & ->).
  intros key user. cbn [machine_after_upload now USERS store_after_upload].
  rewrite lookup_insert. case_decide as Hkey; [|apply Hok].
  intros [= <-]. subst key. destruct (Hok _ _ Hr) as [Hid _].
  split; [exact Hid|]. intros fname [= <-].
  by apply new_filename_named_for.
Qed.

(** * Frame of an upload *)

Lemma files_after_remove_lookup record fs p :
  files_after_remove record fs !! p = fs !! p ∨
  (∃ old, User.avatar_filename record = Some old ∧ p = avatar_path old ∧
          files_after_remove record fs !! p = None).
Proof.
  unfold files_after_remove, old_path.
  destruct (User.avatar_filename record) as [old|]; [|by left].
  destruct (Py.truthy (Some old)); [|by left].
  destruct (decide (p = avatar_path old)) as [->|Hne].
  - right. exists old. by rewrite lookup_delete_eq.
  - left. by rewrite lookup_delete_ne.
Qed.

(** C10: a successful upload by [u] changes [u]'s own state only.  The
    record stored under [u]'s id gets the new name as its pointer and every
    other record is unchanged; the new file holds the uploaded bytes and is
    named for [u]; any other path either keeps its content or is the path
    of the file [u]'s pointer named before, which is removed; files named
    for other users are unchanged. *)
Theorem upload_frame token u file uuid4_hex m resp m' :
  USERS (now m) !! token = Some u →
  post_users_me_avatar token file uuid4_hex m = (inr resp, m') →
  ∃ record,
    USERS (now m) !! User.id u = Some record ∧
    USERS (now m') !! User.id u
    = Some (User.with_avatar_filename record
              (Some (new_filename u uuid4_hex file))) ∧
    (∀ key, key ≠ User.id u → USERS (now m') !! key = USERS (now m) !! key) ∧
    files (now m') !! avatar_path (new_filename u uuid4_hex file)
    = Some (UploadFile.contents file) ∧
    (∀ p, p ≠ avatar_path (new_filename u uuid4_hex file) →
       files (now m') !! p = files (now m) !! p ∨
       (∃ old, User.avatar_filename record = Some old ∧ p = avatar_path old ∧
               files (now m') !! p = None)) ∧
    (String.length uuid4_hex = 32%nat → directory_ok (now m) →
     named_for (User.id u) (new_filename u uuid4_hex file) ∧
     ∀ other name, other ≠ User.id u → named_for other name →
       files (now m') !! avatar_path name = files (now m) !! avatar_path name).
Proof.
  intros Hu Hpost.
  destruct (post_success_inv _ _ _ _ _ _ _ Hu Hpost)
    as (_ & _ & record & Hr & _ & ->).
  exists record. cbn [machine_after_upload now USERS files store_after_upload].
  split; [exact Hr|]. split; [apply lookup_insert_eq|].
  split; [intros key Hkey; by apply lookup_insert_ne|].
  split; [apply lookup_insert_eq|].
  split.
  { intros p Hp. rewrite lookup_insert_ne by done.
    apply files_after_remove_lookup. }
  intros Hlen Hok.
  pose proof (new_filename_named_for u uuid4_hex file Hlen) as Hnew.
  split; [exact Hnew|].
  intros other name Hother Hname.
  rewrite lookup_insert_ne.
  - destruct (files_after_remove_lookup record (files (now m)) (avatar_path name))
      as [Heq | (old & Hold & Hpath & _)]; [exact Heq|].
    apply avatar_path_inj in Hpath as <-.
    destruct (Hok _ _ Hr) as [_ Hptr].
    destruct Hother. exact (named_for_inj _ _ _ Hname (Hptr _ Hold)).
  - intros Hpath%avatar_path_inj. subst name.
    destruct Hother. exact (named_for_inj _ _ _ Hname Hnew).
Qed.

Lemma m_with_avatar_ok : directory_ok (now m_with_avatar).
Proof.
  apply (directory_ok_upload "u1" png_file hex1 m_initial
           (fst (post_users_me_avatar "u1" png_file hex1 m_initial))).
  - reflexivity.
  - exact (directory_ok_initial ∅).
  - apply surjective_pairing.
Qed.

(** Bob uploads while alice has an avatar. *)
Lemma upload_frame_witness :
  let m' := snd (post_users_me_avatar "u2" jpeg_file hex2 m_with_avatar) in
  USERS (now m') !! "u1" = USERS (now m_with_avatar) !! "u1" ∧
  files (now m') !! avatar_path first_name
  = files (now m_with_avatar) !! avatar_path first_name ∧
  files (now m') !! avatar_path (new_filename (User.mk "u2" "bob" None) hex2 jpeg_file)
  = Some (UploadFile.contents jpeg_file).
Proof.
  intros m'.
  destruct (upload_frame "u2" (User.mk "u2" "bob" None) jpeg_file hex2
              m_with_avatar (upload_response (User.mk "u2" "bob" None)) m')
    as (record & _ & _ & Hothers & Hnew & _ & Hnamed).
  - vm_compute. reflexivity.
  - vm_compute. reflexivity.
  - destruct (Hnamed eq_refl m_with_avatar_ok) as [_ Hframe].
    split; [apply Hothers; discriminate|]. split; [|exact Hnew].
    apply Hframe with "u1"; [discriminate|].
    apply (new_filename_named_for alice hex1 png_file). reflexivity.
Defined.

(** * Sequential uploads by one user *)

Lemma new_filename_same_id u u' uuid4_hex file :
  User.id u' = User.id u →
  new_filename u' uuid4_hex file = new_filename u uuid4_hex file.
Proof. unfold new_filename. by intros ->. Qed.

Lemma pointer_writes_remove_effects record s :
  pointer_writes (remove_effects record s) = [].
Proof.
  unfold remove_effects.
  destruct (old_path record); [|done]. by destruct (files s !! _).
Qed.

Section OneUpload.
Variables (record u : User.t) (uuid4_hex : string) (file : UploadFile.t).
Variable m : Machine.
Hypothesis Hrecord : USERS (now m) !! User.id u = Some record.

Let m1 := machine_after_upload record u uuid4_hex file m.
Let name := new_filename u uuid4_hex file.

Lemma after_upload_trace :
  ∃ tr, past m1 = past m ++ tr ∧ pointer_writes tr = [name].
Proof.
  eexists. split; [reflexivity|].
  unfold pointer_writes. rewrite omap_app.
  fold (pointer_writes (remove_effects record (now m))).
  by rewrite pointer_writes_remove_effects.
Qed.

Lemma after_upload_pointer : pointer_of (now m1) (User.id u) = Some name.
Proof.
  unfold pointer_of. cbn [m1 machine_after_upload now USERS store_after_upload].
  by rewrite lookup_insert_eq.
Qed.

Lemma after_upload_file :
  files (now m1) !! avatar_path name = Some (UploadFile.contents file).
Proof.
  cbn [m1 machine_after_upload now files store_after_upload].
  apply lookup_insert_eq.
Qed.

Lemma after_upload_absent p :
  p ≠ avatar_path name →
  files (now m) !! p = None → files (now m1) !! p = None.
Proof.
  intros Hp Hnone.
  cbn [m1 machine_after_upload now files store_after_upload].
  rewrite lookup_insert_ne by done.
  destruct (files_after_remove_lookup record (files (now m)) p)
    as [-> | (_ & _ & _ & ->)]; done.
Qed.

Lemma after_upload_old_removed old :
  pointer_of (now m) (User.id u) = Some old → old ≠ "" →
  avatar_path old ≠ avatar_path name →
  files (now m1) !! avatar_path old = None.
Proof.
  unfold pointer_of. rewrite Hrecord. cbn. intros Hold Hne%String.eqb_neq Hp.
  cbn [m1 machine_after_upload now files store_after_upload].
  rewrite lookup_insert_ne by done.
  unfold files_after_remove, old_path. rewrite Hold. cbn [Py.truthy].
  rewrite Hne. cbn [negb]. apply lookup_delete_eq.
Qed.

Lemma after_upload_caller token :
  USERS (now m) !! token = Some u →
  ∃ u', USERS (now m1) !! token = Some u' ∧ User.id u' = User.id u.
Proof.
  intros Hu.
  cbn [m1 machine_after_upload now USERS store_after_upload].
  destruct (decide (User.id u = token)) as [Heq|Hne].
  - rewrite Heq, lookup_insert_eq. eexists. split; [reflexivity|].
    cbn. rewrite Heq in Hrecord. congruence.
  - rewrite lookup_insert_ne by done. eauto.
Qed.

End OneUpload.

Lemma upload_sequence_cons_inv token file uuid4_hex rest m m' :
  upload_sequence token ((file, uuid4_hex) :: rest) m = (inr (), m') →
  ∃ resp m1,
    post_users_me_avatar token file uuid4_hex m = (inr resp, m1) ∧
    upload_sequence token rest m1 = (inr (), m').
Proof.
  cbn [upload_sequence]. unfold mbind, M_bind, bind.
  destruct (post_users_me_avatar token file uuid4_hex m) as [[e|resp] m1];
    [done | eauto].
Qed.

Section UploadSequence.
Variables (token : string) (u : User.t).

(** What a run of [upload_sequence] does to the trace, to paths it does
    not write, to the file the pointer named before, to the pointer, and
    to the files it wrote before the last one. *)
Lemma upload_sequence_run ups : ∀ m m' u',
  USERS (now m) !! token = Some u' → User.id u' = User.id u →
  upload_sequence token ups m = (inr (), m') →
  NoDup (names_of u ups) →
  (∃ tr, past m' = past m ++ tr ∧ pointer_writes tr = names_of u ups) ∧
  (∀ p, p ∉ avatar_path <$> names_of u ups →
     files (now m) !! p = None → files (now m') !! p = None) ∧
  (ups ≠ [] → ∀ old,
     pointer_of (now m) (User.id u) = Some old → old ≠ "" →
     avatar_path old ∉ avatar_path <$> names_of u ups →
     files (now m') !! avatar_path old = None) ∧
  (∀ file uuid4_hex, last ups = Some (file, uuid4_hex) →
     pointer_of (now m') (User.id u) = Some (new_filename u uuid4_hex file) ∧
     files (now m') !! avatar_path (new_filename u uuid4_hex file)
     = Some (UploadFile.contents file)) ∧
  (∀ i name, names_of u ups !! i = Some name → (S i < length ups)%nat →
     files (now m') !! avatar_path name = None).
Proof.
  induction ups as [|[file uuid4_hex] rest IH]; intros m m' u' Hu Hid Hrun Hnodup.
  { injection Hrun as <-. split; [exists []; by rewrite app_nil_r|].
    repeat split; done. }
  apply upload_sequence_cons_inv in Hrun as (resp & m1 & Hpost & Hrest).
  destruct (post_success_inv _ _ _ _ _ _ _ Hu Hpost)
    as (_ & _ & record & Hr & _ & ->).
  cbn [names_of map fst snd] in Hnodup |- *. fold (names_of u rest) in *.
  apply NoDup_cons in Hnodup as [Hfresh Hnodup].
  destruct (after_upload_caller record u' uuid4_hex file m Hr token Hu)
    as (u'' & Hu'' & Hid'').
  assert (Hid''u : User.id u'' = User.id u) by congruence.
  destruct (IH _ _ _ Hu'' Hid''u Hrest Hnodup)
    as ((tr & Htr & Hwrites) & Habsent & Hold & Hlast & Hprior).
  pose proof (new_filename_same_id u u' uuid4_hex file Hid) as Hname.
  destruct (after_upload_trace record u' uuid4_hex file m) as (tr1 & Htr1 & Hw1).
  pose proof (after_upload_pointer record u' uuid4_hex file m) as Hptr1.
  pose proof (after_upload_file record u' uuid4_hex file m) as Hfile1.
  pose proof (after_upload_absent record u' uuid4_hex file m) as Habsent1.
  pose proof (after_upload_old_removed record u' uuid4_hex file m Hr) as Hold1.
  cbv zeta in Hptr1, Hfile1, Habsent1, Hold1.
  rewrite Hname in Hw1, Hptr1, Hfile1, Habsent1, Hold1.
  rewrite Hid in Hptr1, Hold1.
  set (m1 := machine_after_upload record u' uuid4_hex file m) in *.
  assert (Hpath_fresh :
    avatar_path (new_filename u uuid4_hex file) ∉ avatar_path <$> names_of u rest).
  { intros (name & Hpath%avatar_path_inj & Hin)%list_elem_of_fmap.
    by subst name. }
  assert (Hnonempty : new_filename u uuid4_hex file ≠ "").
  { pose proof (new_filename_truthy u uuid4_hex file) as Ht.
    apply negb_true_iff in Ht. by apply String.eqb_neq. }
  split; [|split; [|split; [|split]]].
  - exists (tr1 ++ tr). rewrite Htr, Htr1, <- app_assoc. split; [done|].
    unfold pointer_writes in *. by rewrite omap_app, Hw1, Hwrites.
  - intros p Hp Hnone. rewrite fmap_cons, not_elem_of_cons in Hp.
    destruct Hp as [Hp1 Hp2].
    apply Habsent; [done|]. by apply Habsent1.
  - intros _ old Hptr Hne Hp. rewrite fmap_cons, not_elem_of_cons in Hp.
    destruct Hp as [Hp1 Hp2].
    apply Habsent; [done|]. by apply Hold1.
  - intros file' hex' Hl. destruct rest as [|up rest'].
    + injection Hl as <- <-. injection Hrest as <-. done.
    + apply Hlast. exact Hl.
  - intros [|i] name Hname' Hlen.
    + injection Hname' as <-. cbn [length] in Hlen.
      apply Hold; [destruct rest; [cbn in Hlen; lia | done] | done..].
    + apply (Hprior i); [exact Hname' | cbn [length] in Hlen; lia].
Qed.

Lemma names_of_NoDup ups :
  NoDup ups.*2 →
  Forall (λ uuid4_hex, String.length uuid4_hex = 32%nat) ups.*2 →
  NoDup (names_of u ups).
Proof.
  induction ups as [|[file uuid4_hex] rest IH]; [constructor|].
  cbn [names_of map fmap list_fmap fst snd].
  intros [Hfresh Hnodup]%NoDup_cons [Hlen Hlens]%Forall_cons.
  apply NoDup_cons. split; [|by apply IH].
  intros ([file' hex'] & Heq & Hin)%list_elem_of_fmap.
  cbn [fst snd] in Heq. apply new_filename_inj in Heq.
  - subst hex'. apply Hfresh.
    apply list_elem_of_fmap. by exists (file', uuid4_hex).
  - rewrite Hlen. symmetry.
    eapply (proj1 (Forall_forall _ _) Hlens).
    apply list_elem_of_fmap. by exists (file', hex').
Qed.

Lemma names_of_form ups :
  Forall2 (λ name up, ∃ ext,
             name = User.id u +:+ "_" +:+ up.2 +:+ ext ∧ ext ∈ accepted_exts)
    (names_of u ups) ups.
Proof.
  induction ups as [|[file uuid4_hex] rest IH]; constructor; [|done].
  exists (safe_ext file). split; [reflexivity | apply safe_ext_accepted].
Qed.

End UploadSequence.

(** C5: [N] sequential successful uploads with one token, whose uuid
    tokens are pairwise different strings of 32 characters (what
    [uuid4().hex] draws), set the pointer to [N] pairwise different names,
    in order; each name is the user id, an underscore, the token of that
    upload and an extension among .png, .jpg, .jpeg.  After the last upload
    retrieval returns the bytes of the last upload under the last name, and
    none of the [N-1] earlier names is a file in storage. *)
Theorem sequential_uploads token u ups m m' :
  USERS (now m) !! token = Some u →
  NoDup ups.*2 →
  Forall (λ uuid4_hex, String.length uuid4_hex = 32%nat) ups.*2 →
  upload_sequence token ups m = (inr (), m') →
  (∃ tr, past m' = past m ++ tr ∧ pointer_writes tr = names_of u ups) ∧
  NoDup (names_of u ups) ∧
  Forall2 (λ name up, ∃ ext,
             name = User.id u +:+ "_" +:+ up.2 +:+ ext ∧ ext ∈ accepted_exts)
    (names_of u ups) ups ∧
  (∀ file uuid4_hex, last ups = Some (file, uuid4_hex) →
     ∃ r, get_user_avatar (User.id u) m' = (inr r, m') ∧
          FileResponse.body r = UploadFile.contents file ∧
          FileResponse.filename r = new_filename u uuid4_hex file) ∧
  (∀ i name, names_of u ups !! i = Some name → (S i < length ups)%nat →
     files (now m') !! avatar_path name = None).
Proof.
  intros Hu Hnodup Hlens Hrun.
  pose proof (names_of_NoDup u ups Hnodup Hlens) as Hnames.
  destruct (upload_sequence_run token u ups m m' u Hu eq_refl Hrun Hnames)
    as (Htrace & _ & _ & Hlast & Hprior).
  split; [exact Htrace|]. split; [exact Hnames|].
  split; [apply names_of_form|]. split; [|exact Hprior].
  intros file uuid4_hex Hl. destruct (Hlast _ _ Hl) as [Hptr Hfile].
  unfold pointer_of in Hptr.
  destruct (USERS (now m') !! User.id u) as [user|] eqn:Huser; [|done].
  cbn in Hptr. eexists. split.
  - eapply get_user_avatar_found; [exact Huser | exact Hptr | | exact Hfile].
    pose proof (new_filename_truthy u uuid4_hex file) as Ht.
    apply negb_true_iff in Ht. by apply String.eqb_neq.
  - split; reflexivity.
Qed.

Lemma sequential_uploads_witness :
  let m' := snd (upload_sequence "u1" two_uploads m_initial) in
  names_of alice two_uploads
  = [ "u1_0123456789abcdef0123456789abcdef.png";
      "u1_fedcba9876543210fedcba9876543210.jpg" ] ∧
  NoDup (names_of alice two_uploads) ∧
  (∃ r, get_user_avatar "u1" m' = (inr r, m') ∧
        FileResponse.body r = UploadFile.contents jpeg_file) ∧
  files (now m') !! avatar_path "u1_0123456789abcdef0123456789abcdef.png" = None.
Proof.
  intros m'.
  destruct (sequential_uploads "u1" alice two_uploads m_initial m' u1_is_alice)
    as (_ & Hnames & _ & Hlast & Hprior).
  - apply (bool_decide_unpack _). vm_compute. reflexivity.
  - repeat constructor.
  - vm_compute. reflexivity.
  - split; [reflexivity|]. split; [exact Hnames|]. split.
    + destruct (Hlast jpeg_file hex2 eq_refl) as (r & Hget & Hbody & _).
      exists r. split; [exact Hget | exact Hbody].
    + apply (Hprior 0%nat); [reflexivity | cbn; lia].
Defined.

(** * Further properties of the handlers *)

(** ** Outcome of an upload request *)

(** X1: the outcome of an upload request is decided by four checks in
    order.  It fails with [Unauthenticated] exactly when the token is not a
    key of [USERS]; for a known token it fails with [InvalidMediaType]
    exactly when the declared type is not allowed, with [PayloadTooLarge]
    exactly when the type is allowed and the payload is above the ceiling,
    with a [KeyError] exactly when both checks pass and the caller's id is
    not a key of [USERS], and it succeeds exactly when both checks pass and
    the id is a key. *)
Theorem upload_outcome token file uuid4_hex m :
  (fst (post_users_me_avatar token file uuid4_hex m) = inl Unauthenticated ↔
   USERS (now m) !! token = None) ∧
  ∀ u, USERS (now m) !! token = Some u →
    (fst (post_users_me_avatar token file uuid4_hex m) = inl InvalidMediaType ↔
     content_type_allowed file = false) ∧
    (fst (post_users_me_avatar token file uuid4_hex m) = inl PayloadTooLarge ↔
     content_type_allowed file = true ∧
     Z.of_nat (length (UploadFile.contents file)) > MAX_AVATAR_SIZE) ∧
    (fst (post_users_me_avatar token file uuid4_hex m)
     = inl (KeyError (User.id u)) ↔
     content_type_allowed file = true ∧
     Z.of_nat (length (UploadFile.contents file)) ≤ MAX_AVATAR_SIZE ∧
     USERS (now m) !! User.id u = None) ∧
    (fst (post_users_me_avatar token file uuid4_hex m)
     = inr (upload_response u) ↔
     content_type_allowed file = true ∧
     Z.of_nat (length (UploadFile.contents file)) ≤ MAX_AVATAR_SIZE ∧
     is_Some (USERS (now m) !! User.id u)).
Proof.
  destruct (USERS (now m) !! token) as [u|] eqn:Hu.
  2: { rewrite post_unauthenticated by done. split; [done|]. intros u [=]. }
  rewrite (post_authenticated _ _ _ _ _ Hu).
  destruct (content_type_allowed file) eqn:Hct.
  2: { rewrite upload_avatar_invalid_type by done. cbn [fst].
       split; [done|]. intros ? [= <-].
       repeat split; try done; by intros [? _]. }
  destruct (Z.gtb_spec (Z.of_nat (length (UploadFile.contents file)))
              MAX_AVATAR_SIZE) as [Hgt|Hle].
  { rewrite upload_avatar_too_large by (done || lia). cbn [fst].
    split; [done|]. intros ? [= <-].
    repeat split; try done; try lia; intros (_ & ? & _); lia. }
  destruct (USERS (now m) !! User.id u) as [record|] eqn:Hr.
  - rewrite (upload_avatar_success _ _ _ _ _ Hct Hle Hr). cbn [fst].
    split; [done|]. intros ? [= <-]. rewrite Hr.
    repeat split; try done; try lia; try (by eexists);
      try (intros (_ & ?); lia); intros (_ & _ & [=]).
  - rewrite (upload_avatar_key_error _ _ _ _ Hct Hle Hr). cbn [fst].
    split; [done|]. intros ? [= <-]. rewrite Hr.
    repeat split; try done; try lia;
      try (intros (_ & ?); lia); intros (_ & _ & [? [=]]).
Qed.

Lemma upload_outcome_witness :
  fst (post_users_me_avatar "u3" png_file hex1 m_initial) = inl Unauthenticated ∧
  fst (post_users_me_avatar "u1" gif_file hex1 m_initial) = inl InvalidMediaType ∧
  fst (post_users_me_avatar "u1" png_file hex1 m_initial)
  = inr (upload_response alice).
Proof.
  destruct (upload_outcome "u3" png_file hex1 m_initial) as [Hunauth _].
  destruct (upload_outcome "u1" gif_file hex1 m_initial) as [_ Hgif].
  destruct (Hgif alice u1_is_alice) as (Htype & _).
  destruct (upload_outcome "u1" png_file hex1 m_initial) as [_ Hpng].
  destruct (Hpng alice u1_is_alice) as (_ & _ & _ & Hsuccess).
  split; [|split].
  - apply Hunauth. vm_compute. reflexivity.
  - apply Htype. vm_compute. reflexivity.
  - apply Hsuccess.
    split; [vm_compute; reflexivity|]. split; [vm_compute; discriminate|].
    exists alice. exact u1_is_alice.
Defined.

(** ** Retrieval *)

Lemma get_user_avatar_cases user_id m :
  get_user_avatar user_id m = (inl UserNotFound, m) ∧
    USERS (now m) !! user_id = None ∨
  get_user_avatar user_id m = (inl NoAvatarSet, m) ∧
    (∃ user, USERS (now m) !! user_id = Some user ∧
             Py.truthy (User.avatar_filename user) = false) ∨
  (∃ user fname,
     USERS (now m) !! user_id = Some user ∧
     User.avatar_filename user = Some fname ∧ fname ≠ "" ∧
     (get_user_avatar user_id m = (inl BlobMissing, m) ∧
        files (now m) !! avatar_path fname = None ∨
      ∃ bytes,
        files (now m) !! avatar_path fname = Some bytes ∧
        get_user_avatar user_id m
        = (inr {| FileResponse.path := avatar_path fname;
                  FileResponse.media_type :=
                    if Py.endswith fname ".png" then "image/png" else "image/jpeg";
                  FileResponse.filename := fname;
                  FileResponse.body := bytes |}, m))).
Proof.
  destruct (USERS (now m) !! user_id) as [user|] eqn:Hu;
    [|left; split; [by apply get_user_avatar_unknown | done]].
  destruct (Py.truthy (User.avatar_filename user)) eqn:Ht;
    [|right; left; split; [by apply (get_user_avatar_unset _ _ user) | eauto]].
  destruct (User.avatar_filename user) as [fname|] eqn:Hp; [|done].
  assert (fname ≠ "") as Hne
    by (apply String.eqb_neq; apply negb_true_iff in Ht; exact Ht).
  right; right. exists user, fname. split; [done|]. split; [done|]. split; [done|].
  destruct (files (now m) !! avatar_path fname) as [bytes|] eqn:Hf.
  - right. exists bytes. split; [done|].
    by apply (get_user_avatar_found _ _ user).
  - left. split; [|done]. by apply (get_user_avatar_missing _ _ user fname).
Qed.

Lemma retrieve_is_read_only_aux user_id m :
  snd (get_user_avatar user_id m) = m.
Proof.
  destruct (get_user_avatar_cases user_id m)
    as [[-> _] | [[-> _] | (user & fname & _ & _ & _ & [[-> _] | (bytes & _ & ->)])]];
    reflexivity.
Qed.

(** X2: retrieval only reads.  Whatever its outcome, it leaves [USERS],
    the files and the trace as they were. *)
Theorem retrieve_is_read_only user_id m r m' :
  get_user_avatar user_id m = (r, m') →
  past m' = past m ∧ USERS (now m') = USERS (now m) ∧ files (now m') = files (now m).
Proof.
  intros Hget. pose proof (retrieve_is_read_only_aux user_id m) as Hm.
  rewrite Hget in Hm. cbn in Hm. by subst.
Qed.

Lemma retrieve_is_read_only_witness :
  fst (get_user_avatar "u1" m_with_avatar)
  = inr {| FileResponse.path := avatar_path first_name;
           FileResponse.media_type := "image/png";
           FileResponse.filename := first_name;
           FileResponse.body := UploadFile.contents png_file |} ∧
  past (snd (get_user_avatar "u1" m_with_avatar)) = past m_with_avatar ∧
  USERS (now (snd (get_user_avatar "u1" m_with_avatar))) = USERS (now m_with_avatar) ∧
  files (now (snd (get_user_avatar "u1" m_with_avatar))) = files (now m_with_avatar).
Proof.
  split; [vm_compute; reflexivity|].
  apply (retrieve_is_read_only "u1" m_with_avatar
           (fst (get_user_avatar "u1" m_with_avatar))).
  apply surjective_pairing.
Defined.

(** X3: retrieval succeeds exactly when the user id is a key of [USERS],
    the pointer of its record is a non-empty name and the file of that name
    is in storage.  The response is then built from the path of that file,
    the name, and the media type image/png when the name ends in .png and
    image/jpeg otherwise, and it streams the bytes of that file. *)
Theorem retrieve_succeeds_iff user_id m r :
  fst (get_user_avatar user_id m) = inr r ↔
  ∃ user fname,
    USERS (now m) !! user_id = Some user ∧
    User.avatar_filename user = Some fname ∧
    fname ≠ "" ∧
    files (now m) !! avatar_path fname = Some (FileResponse.body r) ∧
    FileResponse.path r = avatar_path fname ∧
    FileResponse.filename r = fname ∧
    FileResponse.media_type r
    = (if Py.endswith fname ".png" then "image/png" else "image/jpeg").
Proof.
  split.
  - destruct (get_user_avatar_cases user_id m)
      as [[-> _] | [[-> _] | (user & fname & Hu & Hp & Hne
                              & [[-> _] | (bytes & Hf & ->)])]];
      try discriminate.
    intros [= <-]. exists user, fname. cbn. done.
  - intros (user & fname & Hu & Hp & Hne & Hf & Hpath & Hname & Hmime).
    rewrite (get_user_avatar_found _ _ user fname _ Hu Hp Hne Hf).
    cbn [fst]. f_equal. destruct r; cbn in *. congruence.
Qed.

(** ** One request *)

(** An upload request either leaves the machine as it was, or ends in
    [machine_after_upload]. *)
Lemma post_cases token file uuid4_hex m r m' :
  post_users_me_avatar token file uuid4_hex m = (r, m') →
  (∃ e, r = inl e ∧ m' = m) ∨
  (∃ u record,
     USERS (now m) !! token = Some u ∧
     USERS (now m) !! User.id u = Some record ∧
     r = inr (upload_response u) ∧
     m' = machine_after_upload record u uuid4_hex file m).
Proof.
  intros Hpost. destruct r as [e|resp].
  - left. exists e. split; [done|]. by apply upload_failure_machine in Hpost.
  - right. destruct (USERS (now m) !! token) as [u|] eqn:Hu;
      [|by rewrite post_unauthenticated in Hpost].
    destruct (post_success_inv _ _ _ _ _ _ _ Hu Hpost)
      as (_ & _ & record & Hr & -> & ->).
    by exists u, record.
Qed.

Lemma handle_post token file uuid4_hex m :
  handle (PostAvatar token file uuid4_hex) m
  = (match fst (post_users_me_avatar token file uuid4_hex m) with
     | inl e => inl e
     | inr resp => inr (Created resp)
     end,
     snd (post_users_me_avatar token file uuid4_hex m)).
Proof.
  cbn [handle]. unfold mbind, M_bind, bind, mret, M_ret, ret.
  by destruct (post_users_me_avatar token file uuid4_hex m) as [[e|resp] m'].
Qed.

Lemma handle_get user_id m :
  handle (GetAvatar user_id) m
  = (match fst (get_user_avatar user_id m) with
     | inl e => inl e
     | inr resp => inr (Image resp)
     end, m).
Proof.
  cbn [handle]. unfold mbind, M_bind, bind, mret, M_ret, ret.
  pose proof (retrieve_is_read_only_aux user_id m) as Hm.
  destruct (get_user_avatar user_id m) as [[e|resp] m']; cbn in Hm; by subst.
Qed.

(** ** Invariants of the store *)

Lemma named_for_nonempty uid name : named_for uid name → name ≠ "".
Proof.
  intros (tok & ext & -> & _). apply string_app_nonempty. done.
Qed.

Section AfterUpload.
Variables (record u : User.t) (uuid4_hex : string) (file : UploadFile.t).
Variable m : Machine.
Hypothesis Hrecord : USERS (now m) !! User.id u = Some record.

Let m1 := machine_after_upload record u uuid4_hex file m.

Lemma after_upload_users key :
  USERS (now m1) !! key
  = if decide (User.id u = key)
    then Some (User.with_avatar_filename record
                 (Some (new_filename u uuid4_hex file)))
    else USERS (now m) !! key.
Proof.
  cbn [m1 machine_after_upload now USERS store_after_upload].
  apply lookup_insert.
Qed.

Lemma after_upload_files p :
  files (now m1) !! p
  = if decide (avatar_path (new_filename u uuid4_hex file) = p)
    then Some (UploadFile.contents file)
    else files_after_remove record (files (now m)) !! p.
Proof.
  cbn [m1 machine_after_upload now files store_after_upload].
  apply lookup_insert.
Qed.

Lemma pointers_valid_after_upload :
  directory_ok (now m) →
  (∀ key, pointer_valid (now m) key) →
  ∀ key, pointer_valid (now m1) key.
Proof.
  intros Hok Hvalid key user fname.
  rewrite after_upload_users, after_upload_files.
  case_decide as Hkey.
  - intros [= <-] [= <-]. rewrite decide_True by done. by eexists.
  - intros Huser Hfname. case_decide; [by eexists|].
    destruct (files_after_remove_lookup record (files (now m)) (avatar_path fname))
      as [-> | (old & Hold & Hpath & _)]; [by eapply Hvalid|].
    apply avatar_path_inj in Hpath as <-.
    destruct (Hok _ _ Hrecord) as [_ Hmine].
    destruct (Hok _ _ Huser) as [_ Htheirs].
    destruct Hkey.
    exact (named_for_inj _ _ _ (Hmine _ Hold) (Htheirs _ Hfname)).
Qed.

Lemma no_orphans_after_upload :
  directory_ok (now m) → no_orphans (now m) → no_orphans (now m1).
Proof.
  intros Hok Horph p. rewrite after_upload_files. case_decide as Hp.
  - intros _. eexists (User.id u), _, _.
    rewrite after_upload_users, decide_True by done. done.
  - intros Hsome.
    destruct (files_after_remove_lookup record (files (now m)) p)
      as [Heq | (_ & _ & _ & Hnone)];
      [|rewrite Hnone in Hsome; by destruct Hsome].
    rewrite Heq in Hsome.
    destruct (Horph p Hsome) as (key & user & fname & Huser & Hfname & ->).
    exists key, user, fname. rewrite after_upload_users.
    case_decide as Hkey; [|done]. subst key.
    assert (user = record) as -> by congruence.
    destruct (Hok _ _ Hrecord) as [_ Hmine].
    pose proof (named_for_nonempty _ _ (Hmine _ Hfname)) as Hne.
    apply String.eqb_neq in Hne.
    unfold files_after_remove, old_path in Heq.
    rewrite Hfname in Heq. cbn [Py.truthy] in Heq. rewrite Hne in Heq.
    cbn [negb] in Heq. rewrite lookup_delete_eq in Heq.
    rewrite <- Heq in Hsome. by destruct Hsome.
Qed.

Lemma identities_after_upload key :
  (λ r, (User.id r, User.username r)) <$> USERS (now m1) !! key
  = (λ r, (User.id r, User.username r)) <$> USERS (now m) !! key.
Proof.
  rewrite after_upload_users. case_decide as Hkey; [|done].
  subst key. by rewrite Hrecord.
Qed.

Lemma avatar_kept_after_upload key :
  Py.truthy (pointer_of (now m) key) = true →
  Py.truthy (pointer_of (now m1) key) = true.
Proof.
  unfold pointer_of. rewrite after_upload_users. case_decide; [|done].
  intros _. apply new_filename_truthy.
Qed.

End AfterUpload.

Lemma post_failure_kinds token file uuid4_hex m e m' :
  post_users_me_avatar token file uuid4_hex m = (inl e, m') →
  e = Unauthenticated ∨ e = InvalidMediaType ∨ e = PayloadTooLarge ∨
  ∃ u, USERS (now m) !! token = Some u ∧
       USERS (now m) !! User.id u = None ∧ e = KeyError (User.id u).
Proof.
  destruct (USERS (now m) !! token) as [u|] eqn:Hu;
    [|rewrite post_unauthenticated by done; intros [= <- _]; auto].
  rewrite (post_authenticated _ _ _ _ _ Hu).
  destruct (content_type_allowed file) eqn:Hct;
    [|rewrite upload_avatar_invalid_type by done; intros [= <- _]; auto].
  destruct (Z.gtb_spec (Z.of_nat (length (UploadFile.contents file)))
              MAX_AVATAR_SIZE) as [Hgt|Hle];
    [rewrite upload_avatar_too_large by (done || lia); intros [= <- _]; auto|].
  destruct (USERS (now m) !! User.id u) as [record|] eqn:Hr.
  - by rewrite (upload_avatar_success _ _ _ _ _ Hct Hle Hr).
  - rewrite (upload_avatar_key_error _ _ _ _ Hct Hle Hr). intros [= <- _].
    right; right; right. by exists u.
Qed.

(** What one request does to the machine. *)
Lemma handle_machine_cases rq m :
  snd (handle rq m) = m ∨
  ∃ token file uuid4_hex u record,
    rq = PostAvatar token file uuid4_hex ∧
    USERS (now m) !! token = Some u ∧
    USERS (now m) !! User.id u = Some record ∧
    snd (handle rq m) = machine_after_upload record u uuid4_hex file m.
Proof.
  destruct rq as [token file uuid4_hex | user_id].
  - rewrite handle_post. cbn [snd].
    destruct (post_cases token file uuid4_hex m _ _ (surjective_pairing _))
      as [(e & _ & Hm) | (u & record & Hu & Hr & _ & Hm)]; [by left|].
    right. by exists token, file, uuid4_hex, u, record.
  - rewrite handle_get. by left.
Qed.

(** In a store that satisfies the invariants no request fails because of
    the store: there is neither a [KeyError] nor a missing file. *)
Lemma handle_no_store_fault rq m :
  directory_ok (now m) →
  (∀ key, pointer_valid (now m) key) →
  fst (handle rq m) ≠ inl BlobMissing ∧
  ∀ key, fst (handle rq m) ≠ inl (KeyError key).
Proof.
  intros Hok Hvalid. destruct rq as [token file uuid4_hex | user_id].
  - rewrite handle_post. cbn [fst].
    destruct (post_users_me_avatar token file uuid4_hex m) as [[e|resp] m'] eqn:Hpost;
      cbn [fst]; [|done].
    destruct (post_failure_kinds _ _ _ _ _ _ Hpost)
      as [-> | [-> | [-> | (u & Hu & Hr & ->)]]]; try done.
    destruct (Hok _ _ Hu) as [Hid _]. rewrite Hid, Hu in Hr. done.
  - rewrite handle_get. cbn [fst].
    destruct (get_user_avatar_cases user_id m)
      as [[-> _] | [[-> _] | (user & fname & Hu & Hp & _
                              & [[_ Hf] | (bytes & _ & ->)])]];
      cbn [fst]; try done.
    destruct (Hvalid user_id user fname Hu Hp) as [bytes Hbytes]. congruence.
Qed.

Lemma handle_keeps_directory_ok rq m :
  request_ok rq → directory_ok (now m) → directory_ok (now (snd (handle rq m))).
Proof.
  intros Hrq Hok. destruct rq as [token file uuid4_hex | user_id].
  - rewrite handle_post. cbn [snd].
    eapply directory_ok_upload; [exact Hrq | exact Hok | apply surjective_pairing].
  - by rewrite handle_get.
Qed.

Lemma handle_keeps_pointers_valid rq m :
  directory_ok (now m) →
  (∀ key, pointer_valid (now m) key) →
  ∀ key, pointer_valid (now (snd (handle rq m))) key.
Proof.
  intros Hok Hvalid.
  destruct (handle_machine_cases rq m)
    as [-> | (token & file & uuid4_hex & u & record & -> & Hu & Hr & ->)];
    [done|].
  by apply pointers_valid_after_upload.
Qed.

Lemma handle_keeps_no_orphans rq m :
  directory_ok (now m) → no_orphans (now m) →
  no_orphans (now (snd (handle rq m))).
Proof.
  intros Hok Horph.
  destruct (handle_machine_cases rq m)
    as [-> | (token & file & uuid4_hex & u & record & -> & Hu & Hr & ->)];
    [done|].
  by apply no_orphans_after_upload.
Qed.

Lemma serve_cons rq rest m :
  serve (rq :: rest) m
  = (fst (handle rq m) :: fst (serve rest (snd (handle rq m))),
     snd (serve rest (snd (handle rq m)))).
Proof.
  cbn [serve]. destruct (handle rq m) as [r m1]. cbn [fst snd].
  by destruct (serve rest m1).
Qed.

(** ** Any sequence of requests *)

Lemma serve_identities rqs : ∀ m key,
  (λ r, (User.id r, User.username r)) <$> USERS (now (snd (serve rqs m))) !! key
  = (λ r, (User.id r, User.username r)) <$> USERS (now m) !! key.
Proof.
  induction rqs as [|rq rest IH]; intros m key; [done|].
  rewrite serve_cons. cbn [snd]. rewrite IH.
  destruct (handle_machine_cases rq m)
    as [-> | (token & file & uuid4_hex & u & record & _ & _ & Hr & ->)];
    [done|].
  by apply identities_after_upload.
Qed.

(** X4: no request creates, deletes or renames a user.  After any sequence
    of requests every key of [USERS] holds a record with the id and the
    username it had before, and the keys are the same as before; only
    [avatar_filename] changes. *)
Theorem serve_preserves_identities rqs m :
  dom (USERS (now (snd (serve rqs m)))) = dom (USERS (now m)) ∧
  ∀ key user,
    USERS (now m) !! key = Some user →
    ∃ user',
      USERS (now (snd (serve rqs m))) !! key = Some user' ∧
      User.id user' = User.id user ∧
      User.username user' = User.username user.
Proof.
  split.
  - apply set_eq. intros key. rewrite !elem_of_dom.
    pose proof (serve_identities rqs m key) as Hkey.
    destruct (USERS (now (snd (serve rqs m))) !! key),
      (USERS (now m) !! key); cbn in Hkey; try done; by split; eauto.
  - intros key user Hu. pose proof (serve_identities rqs m key) as Hkey.
    rewrite Hu in Hkey.
    destruct (USERS (now (snd (serve rqs m))) !! key) as [user'|];
      cbn in Hkey; [|done].
    injection Hkey as Hid Hname. by exists user'.
Qed.

Lemma serve_preserves_identities_witness :
  ∃ user',
    USERS (now (snd (serve a_session m_initial))) !! "u1" = Some user' ∧
    User.id user' = "u1" ∧ User.username user' = "alice".
Proof.
  destruct (serve_preserves_identities a_session m_initial) as [_ Hrecords].
  exact (Hrecords "u1" alice u1_is_alice).
Defined.

Lemma serve_avatar_kept rqs : ∀ m key,
  Py.truthy (pointer_of (now m) key) = true →
  Py.truthy (pointer_of (now (snd (serve rqs m))) key) = true.
Proof.
  induction rqs as [|rq rest IH]; intros m key Hset; [done|].
  rewrite serve_cons. cbn [snd]. apply IH.
  destruct (handle_machine_cases rq m)
    as [-> | (token & file & uuid4_hex & u & record & _ & _ & Hr & ->)];
    [done|].
  by apply avatar_kept_after_upload.
Qed.

(** X5: an avatar, once set, is never unset.  If the pointer of a record
    is a non-empty name, it is a non-empty name after any sequence of
    requests. *)
Theorem serve_never_unsets_avatar rqs m key :
  Py.truthy (pointer_of (now m) key) = true →
  Py.truthy (pointer_of (now (snd (serve rqs m))) key) = true.
Proof. apply serve_avatar_kept. Qed.

Lemma serve_invariants rqs : ∀ m,
  Forall request_ok rqs →
  directory_ok (now m) →
  (∀ key, pointer_valid (now m) key) →
  directory_ok (now (snd (serve rqs m))) ∧
  (∀ key, pointer_valid (now (snd (serve rqs m))) key) ∧
  Forall (λ r, r ≠ inl BlobMissing ∧ ∀ key, r ≠ inl (KeyError key))
    (fst (serve rqs m)).
Proof.
  induction rqs as [|rq rest IH]; intros m Hrqs Hok Hvalid.
  { cbn. split; [done|]. split; [done | constructor]. }
  apply Forall_cons in Hrqs as [Hrq Hrqs].
  rewrite serve_cons. cbn [fst snd].
  pose proof (handle_keeps_directory_ok rq m Hrq Hok) as Hok1.
  pose proof (handle_keeps_pointers_valid rq m Hok Hvalid) as Hvalid1.
  destruct (IH _ Hrqs Hok1 Hvalid1) as (Hok' & Hvalid' & Hrs).
  split; [done|]. split; [done|].
  constructor; [by apply handle_no_store_fault | done].
Qed.

(** X6: requests that do not overlap keep the invariants of the store.
    Let the requests be served one at a time, each running to its end
    before the next starts, with upload tokens of 32 characters and file
    writes that succeed.  If every record is stored under its own id with
    a pointer that is unset or a name of that user, and every pointer that
    is set names a file in storage, then the same holds after the last
    request, and no request of the sequence fails with [BlobMissing] or
    with a [KeyError].  (A request that starts while an upload is
    suspended between its effects is outside this statement, see X16.) *)
Theorem serve_keeps_pointers_valid rqs m :
  Forall request_ok rqs →
  directory_ok (now m) →
  (∀ key, pointer_valid (now m) key) →
  directory_ok (now (snd (serve rqs m))) ∧
  (∀ key, pointer_valid (now (snd (serve rqs m))) key) ∧
  Forall (λ r, r ≠ inl BlobMissing ∧ ∀ key, r ≠ inl (KeyError key))
    (fst (serve rqs m)).
Proof. apply serve_invariants. Qed.

Lemma serve_no_orphans rqs : ∀ m,
  Forall request_ok rqs →
  directory_ok (now m) →
  no_orphans (now m) →
  directory_ok (now (snd (serve rqs m))) ∧ no_orphans (now (snd (serve rqs m))).
Proof.
  induction rqs as [|rq rest IH]; intros m Hrqs Hok Horph; [done|].
  apply Forall_cons in Hrqs as [Hrq Hrqs].
  rewrite serve_cons. cbn [snd]. apply IH; [done | |].
  - by apply handle_keeps_directory_ok.
  - by apply handle_keeps_no_orphans.
Qed.

(** X7: requests that do not overlap leave no file behind that no record
    points to.  Let the requests be served one at a time, each running to
    its end before the next starts, with upload tokens of 32 characters
    and file writes that succeed.  In a store where every record is stored
    under its own id with a pointer that is unset or a name of that user,
    and in which every file is the one some record points to, this is
    still so after the last request.  (Two uploads of one user that
    overlap are outside this statement.) *)
Theorem serve_leaves_no_orphans rqs m :
  Forall request_ok rqs →
  directory_ok (now m) →
  no_orphans (now m) →
  no_orphans (now (snd (serve rqs m))).
Proof. intros Hrqs Hok Horph. by apply serve_no_orphans. Qed.

Lemma pointers_valid_initial fs key :
  pointer_valid (mkStore USERS_initial fs) key.
Proof.
  intros user fname. unfold USERS_initial. cbn [USERS].
  rewrite !lookup_insert, lookup_empty.
  repeat case_decide; intros [= <-]; done.
Qed.

Lemma no_orphans_empty users : no_orphans (mkStore users ∅).
Proof. intros p [bytes Hbytes]. cbn in Hbytes. by rewrite lookup_empty in Hbytes. Qed.

Lemma a_session_ok : Forall request_ok a_session.
Proof. repeat constructor. Qed.

Lemma serve_never_unsets_avatar_witness :
  Py.truthy (pointer_of (now m_with_avatar) "u1") = true ∧
  Py.truthy (pointer_of (now (snd (serve a_session m_with_avatar))) "u1") = true.
Proof.
  split; [vm_compute; reflexivity|].
  apply (serve_never_unsets_avatar a_session m_with_avatar "u1").
  vm_compute. reflexivity.
Defined.

Lemma serve_keeps_pointers_valid_witness :
  directory_ok (now (snd (serve a_session m_initial))) ∧
  (∀ key, pointer_valid (now (snd (serve a_session m_initial))) key) ∧
  Forall (λ r, r ≠ inl BlobMissing ∧ ∀ key, r ≠ inl (KeyError key))
    (fst (serve a_session m_initial)).
Proof.
  apply (serve_keeps_pointers_valid a_session m_initial a_session_ok).
  - exact (directory_ok_initial ∅).
  - exact (pointers_valid_initial ∅).
Defined.

Lemma serve_leaves_no_orphans_witness :
  no_orphans (now (snd (serve a_session m_initial))).
Proof.
  apply (serve_leaves_no_orphans a_session m_initial a_session_ok).
  - exact (directory_ok_initial ∅).
  - exact (no_orphans_empty USERS_initial).
Defined.

Example a_session_responses :
  fst (serve a_session m_initial)
  = [ inr (Created (upload_response alice));
      inl NoAvatarSet;
      inr (Created (upload_response (User.mk "u2" "bob" None)));
      inr (Created (upload_response alice));
      inl Unauthenticated;
      inl InvalidMediaType;
      inr (Image {| FileResponse.path := "./avatars/u1_fedcba9876543210fedcba9876543210.jpg";
                    FileResponse.media_type := "image/jpeg";
                    FileResponse.filename := "u1_fedcba9876543210fedcba9876543210.jpg";
                    FileResponse.body := UploadFile.contents jpeg_file |}) ].
Proof. vm_compute. reflexivity. Qed.

(** ** Names and paths *)

(** X8: uploads by two users with different ids never get the same path,
    whatever the files and even when the two tokens are equal, as long as
    both tokens have 32 characters. *)
Theorem names_differ_across_users u v hex hex' file file' :
  String.length hex = 32%nat →
  String.length hex' = 32%nat →
  User.id u ≠ User.id v →
  new_filename u hex file ≠ new_filename v hex' file' ∧
  avatar_path (new_filename u hex file) ≠ avatar_path (new_filename v hex' file').
Proof.
  intros Hlen Hlen' Hid.
  assert (Hnames : new_filename u hex file ≠ new_filename v hex' file').
  { intros Heq. apply Hid.
    apply (named_for_inj _ _ (new_filename u hex file)).
    - by apply new_filename_named_for.
    - rewrite Heq. by apply new_filename_named_for. }
  split; [exact Hnames|]. by intros ?%avatar_path_inj.
Qed.

Lemma names_differ_across_users_witness :
  avatar_path (new_filename alice hex1 png_file)
  ≠ avatar_path (new_filename (User.mk "u2" "bob" None) hex1 png_file).
Proof.
  apply (names_differ_across_users alice (User.mk "u2" "bob" None)
           hex1 hex1 png_file png_file); [reflexivity | reflexivity | discriminate].
Defined.

(** The length of the tokens matters: a user whose id continues another
    id with an underscore could get the same name with a shorter token. *)
Example names_collide_with_short_token :
  new_filename (User.mk "a" "ann" None) "b_c" png_file
  = new_filename (User.mk "a_b" "abe" None) "c" png_file.
Proof. reflexivity. Qed.

Lemma slash_free_app a b :
  slash_free (a +:+ b) ↔ slash_free a ∧ slash_free b.
Proof.
  unfold slash_free. rewrite string_to_list_app, not_elem_of_app. done.
Qed.

Lemma accepted_ext_slash_free e : e ∈ accepted_exts → slash_free e.
Proof.
  unfold accepted_exts, slash_free. rewrite !elem_of_cons, elem_of_nil.
  intros [-> | [-> | [-> | []]]]; cbn;
    rewrite !not_elem_of_cons; repeat split; try discriminate;
    apply not_elem_of_nil.
Qed.

Lemma startswith_slash_free s : slash_free s → Py.startswith s "/" = false.
Proof.
  destruct s as [|c s]; [done|]. rewrite startswith_slash_cons.
  destruct (ascii_dec "/" c) as [<-|]; [|done].
  unfold slash_free. cbn. rewrite not_elem_of_cons. by intros [? _].
Qed.

(** X9: the client's file name cannot steer where the upload is written.
    When the caller's id and the token contain no slash, the stored name
    contains none either, whatever the original file name, and the file is
    written directly inside [AVATAR_DIR]. *)
Theorem stored_path_inside_avatar_dir u uuid4_hex file :
  slash_free (User.id u) →
  slash_free uuid4_hex →
  slash_free (new_filename u uuid4_hex file) ∧
  avatar_path (new_filename u uuid4_hex file)
  = AVATAR_DIR +:+ "/" +:+ new_filename u uuid4_hex file.
Proof.
  intros Hid Hhex.
  assert (Hname : slash_free (new_filename u uuid4_hex file)).
  { unfold new_filename. rewrite !slash_free_app.
    split; [done|]. split; [|split; [done|]].
    - unfold slash_free. cbn. rewrite not_elem_of_cons.
      split; [discriminate | apply not_elem_of_nil].
    - apply accepted_ext_slash_free, safe_ext_accepted. }
  split; [exact Hname|].
  rewrite avatar_path_unfold. by rewrite startswith_slash_free.
Qed.

Lemma stored_path_inside_avatar_dir_witness :
  slash_free (new_filename alice hex1 traversal_file) ∧
  avatar_path (new_filename alice hex1 traversal_file)
  = "./avatars/u1_0123456789abcdef0123456789abcdef.png".
Proof.
  apply (stored_path_inside_avatar_dir alice hex1 traversal_file).
  - apply (bool_decide_unpack _). vm_compute. reflexivity.
  - apply (bool_decide_unpack _). vm_compute. reflexivity.
Defined.

(** ** Uploads and other users *)

(** Retrieval looks at the record of the user and at the file it names,
    and at nothing else. *)
Lemma get_user_avatar_ext user_id m m' :
  USERS (now m') !! user_id = USERS (now m) !! user_id →
  (∀ user fname,
     USERS (now m) !! user_id = Some user →
     User.avatar_filename user = Some fname →
     files (now m') !! avatar_path fname = files (now m) !! avatar_path fname) →
  fst (get_user_avatar user_id m') = fst (get_user_avatar user_id m).
Proof.
  intros Husers Hfiles.
  destruct (get_user_avatar_cases user_id m)
    as [[-> Hu] | [[-> (user & Hu & Ht)]
                  | (user & fname & Hu & Hp & Hne & [[-> Hf] | (bytes & Hf & ->)])]];
    cbn [fst].
  - rewrite get_user_avatar_unknown; [done | congruence].
  - rewrite (get_user_avatar_unset _ _ user); [done | congruence | done].
  - rewrite (get_user_avatar_missing _ _ user fname); try done; [congruence|].
    by rewrite (Hfiles user fname).
  - rewrite (get_user_avatar_found _ _ user fname bytes); try done; [congruence|].
    by rewrite (Hfiles user fname).
Qed.

(** X10: an upload does not change what retrieval returns for any other
    user.  In a store where every record is stored under its own id with
    a pointer that is unset or a name of that user, after a successful
    upload by [u] with a token of 32 characters, retrieval of a user id
    other than [u]'s has the outcome it had before. *)
Theorem retrieve_unaffected_by_other_upload
    token u file uuid4_hex m resp m' user_id :
  directory_ok (now m) →
  String.length uuid4_hex = 32%nat →
  USERS (now m) !! token = Some u →
  post_users_me_avatar token file uuid4_hex m = (inr resp, m') →
  user_id ≠ User.id u →
  fst (get_user_avatar user_id m') = fst (get_user_avatar user_id m).
Proof.
  intros Hok Hlen Hu Hpost Hother.
  destruct (post_success_inv _ _ _ _ _ _ _ Hu Hpost)
    as (_ & _ & record & Hr & _ & ->).
  apply get_user_avatar_ext.
  - rewrite (after_upload_users record u uuid4_hex file m).
    by rewrite decide_False.
  - intros user fname Huser Hfname.
    destruct (Hok _ _ Huser) as [_ Htheirs].
    destruct (Hok _ _ Hr) as [_ Hmine].
    rewrite (after_upload_files record u uuid4_hex file m).
    rewrite decide_False.
    + destruct (files_after_remove_lookup record (files (now m)) (avatar_path fname))
        as [Heq | (old & Hold & Hpath & _)]; [exact Heq|].
      apply avatar_path_inj in Hpath as <-.
      destruct Hother.
      exact (named_for_inj _ _ _ (Htheirs _ Hfname) (Hmine _ Hold)).
    + intros Hpath%avatar_path_inj. destruct Hother.
      apply (named_for_inj _ _ fname (Htheirs _ Hfname)).
      rewrite <- Hpath. by apply new_filename_named_for.
Qed.

Lemma retrieve_unaffected_by_other_upload_witness :
  fst (get_user_avatar "u1"
         (snd (post_users_me_avatar "u2" jpeg_file hex1 m_with_avatar)))
  = fst (get_user_avatar "u1" m_with_avatar).
Proof.
  apply (retrieve_unaffected_by_other_upload "u2" (User.mk "u2" "bob" None)
           jpeg_file hex1 m_with_avatar
           (upload_response (User.mk "u2" "bob" None))).
  - exact m_with_avatar_ok.
  - reflexivity.
  - vm_compute. reflexivity.
  - vm_compute. reflexivity.
  - discriminate.
Defined.

(** ** Uploads that find no old file *)

(** X11: when the caller's pointer is unset or empty, or names a file that
    is not in storage, the upload removes nothing and still succeeds:
    the failure of [os.remove] is swallowed.  The request performs exactly
    two effects, the write of the new file and the update of the pointer,
    and storage afterwards is storage before with the new file added. *)
Theorem upload_without_old_file token u record file uuid4_hex m :
  USERS (now m) !! token = Some u →
  USERS (now m) !! User.id u = Some record →
  UploadFile.content_type file = Some "image/jpeg" ∨
  UploadFile.content_type file = Some "image/png" →
  Z.of_nat (length (UploadFile.contents file)) ≤ MAX_AVATAR_SIZE →
  (∀ old, User.avatar_filename record = Some old → old ≠ "" →
     files (now m) !! avatar_path old = None) →
  ∃ s m',
    post_users_me_avatar token file uuid4_hex m = (inr (upload_response u), m') ∧
    past m' = past m ++
      [ (FileWrite (avatar_path (new_filename u uuid4_hex file))
           (UploadFile.contents file), s);
        (SetAvatarFilename (User.id u) (new_filename u uuid4_hex file), now m') ] ∧
    files (now m')
    = <[ avatar_path (new_filename u uuid4_hex file) := UploadFile.contents file ]>
        (files (now m)).
Proof.
  intros Hu Hr Hct%content_type_allowed_spec Hlen Hold.
  rewrite (post_authenticated _ _ _ _ _ Hu).
  rewrite (upload_avatar_success _ _ _ _ _ Hct Hlen Hr).
  assert (Hfiles : files_after_remove record (files (now m)) = files (now m)
                   ∧ remove_effects record (now m) = []).
  { unfold files_after_remove, remove_effects, old_path.
    destruct (User.avatar_filename record) as [old|] eqn:Hp; [|done].
    cbn [Py.truthy]. destruct (String.eqb_spec old "") as [->|Hne]; [done|].
    cbn [negb]. rewrite (Hold old eq_refl Hne).
    split; [|done]. apply delete_id. by apply Hold. }
  destruct Hfiles as [Hfiles Heffects].
  eexists _, _. split; [reflexivity|].
  cbn [past now files store_after_upload]. rewrite Heffects, Hfiles.
  split; reflexivity.
Qed.

Lemma upload_without_old_file_witness :
  ∃ s m',
    post_users_me_avatar "u1" png_file hex1 m_stale
    = (inr (upload_response alice), m') ∧
    past m' = past m_stale ++
      [ (FileWrite (avatar_path (new_filename alice hex1 png_file))
           (UploadFile.contents png_file), s);
        (SetAvatarFilename "u1" (new_filename alice hex1 png_file), now m') ] ∧
    files (now m')
    = <[ avatar_path (new_filename alice hex1 png_file)
         := UploadFile.contents png_file ]> (files (now m_stale)).
Proof.
  apply (upload_without_old_file "u1"
           (User.mk "u1" "alice" (Some "u1_gone.png"))
           (User.mk "u1" "alice" (Some "u1_gone.png")) png_file hex1 m_stale).
  - vm_compute. reflexivity.
  - vm_compute. reflexivity.
  - right. reflexivity.
  - vm_compute. discriminate.
  - intros old [= <-] _. vm_compute. reflexivity.
Defined.

(** ** The extension of a file name *)

Section Rfind.
Variable c : ascii.

Lemma rfind_from_ge_last s : ∀ i last,
  last < i → last ≤ Py.rfind_from c s i last.
Proof.
  induction s as [|a s IH]; intros i last Hlt; cbn [Py.rfind_from]; [lia|].
  destruct (Ascii.eqb a c).
  - specialize (IH (i + 1) i). lia.
  - specialize (IH (i + 1) last). lia.
Qed.

(** The result is the position of an occurrence after which there is no
    other, or [last] when there is no occurrence. *)
Lemma rfind_from_spec s : ∀ i last,
  ((c ∉ list_ascii_of_string s) ∧ Py.rfind_from c s i last = last) ∨
  (∃ s1 s2, s = s1 +:+ String c s2 ∧ (c ∉ list_ascii_of_string s2) ∧
            Py.rfind_from c s i last = i + Z.of_nat (String.length s1)).
Proof.
  induction s as [|a s IH]; intros i last; cbn [Py.rfind_from].
  { left. split; [apply not_elem_of_nil | done]. }
  destruct (IH (i + 1) (if Ascii.eqb a c then i else last))
    as [[Hnot Heq] | (s1 & s2 & -> & Hnot & Heq)].
  - rewrite Heq. destruct (Ascii.eqb_spec a c) as [->|Hne].
    + right. exists "", s. cbn. split; [done|]. split; [done | lia].
    + left. cbn. rewrite not_elem_of_cons. split; [|done]. split; [congruence|done].
  - right. exists (String a s1), s2. rewrite Heq.
    split; [done|]. split; [done|]. cbn [String.length]. lia.
Qed.

(** An occurrence bounds the result from below. *)
Lemma rfind_from_ge s1 s2 : ∀ i last,
  last < i →
  i + Z.of_nat (String.length s1) ≤ Py.rfind_from c (s1 +:+ String c s2) i last.
Proof.
  induction s1 as [|a s1 IH]; intros i last Hlt.
  - rewrite string_app_nil. cbn [Py.rfind_from String.length].
    rewrite Ascii.eqb_refl.
    pose proof (rfind_from_ge_last s2 (i + 1) i). lia.
  - rewrite string_app_cons. cbn [Py.rfind_from String.length].
    specialize (IH (i + 1) (if Ascii.eqb a c then i else last)).
    destruct (Ascii.eqb a c); lia.
Qed.

End Rfind.

Lemma string_elem_split c s :
  c ∈ list_ascii_of_string s → ∃ a b, s = a +:+ String c b.
Proof.
  induction s as [|x s IH]; cbn; [by intros ?%elem_of_nil|].
  intros [->|Hin]%elem_of_cons.
  - by exists "", s.
  - destruct (IH Hin) as (a & b & ->). by exists (String x a), b.
Qed.

Lemma string_app_nil_r a : a +:+ "" = a.
Proof.
  induction a as [|x a IH]; [done|]. by rewrite string_app_cons, IH.
Qed.

Lemma take_app a b : Py.take (Z.of_nat (String.length a)) (a +:+ b) = a.
Proof.
  unfold Py.take. rewrite Nat2Z.id.
  induction a as [|x a IH]; [by destruct b|].
  rewrite string_app_cons. cbn. by rewrite IH.
Qed.

Lemma drop_app a b : Py.drop (Z.of_nat (String.length a)) (a +:+ b) = b.
Proof.
  unfold Py.drop. rewrite Nat2Z.id, string_length_app.
  replace (String.length a + String.length b - String.length a)%nat
    with (String.length b) by lia.
  apply substring_app_suffix.
Qed.

Lemma skip_leading_dots_cases p dotIndex : ∀ n filenameIndex,
  Py.skip_leading_dots p dotIndex filenameIndex n = (p, "") ∨
  Py.skip_leading_dots p dotIndex filenameIndex n
  = (Py.take dotIndex p, Py.drop dotIndex p).
Proof.
  induction n as [|n IH]; intros filenameIndex; cbn [Py.skip_leading_dots];
    [by left|].
  destruct (negb _); [by right | apply IH].
Qed.

(** X12: [os.path.splitext] cuts the name in two without losing a
    character, and the extension it returns is empty or a period followed
    by characters that are neither a period nor a slash.  So the extension
    the upload looks at is always the part after the last period of the
    last path component. *)
Theorem splitext_spec p :
  fst (Py.splitext p) +:+ snd (Py.splitext p) = p ∧
  (snd (Py.splitext p) = "" ∨
   ∃ rest, snd (Py.splitext p) = String "." rest ∧
           ("."%char ∉ list_ascii_of_string rest) ∧
           ("/"%char ∉ list_ascii_of_string rest)).
Proof.
  unfold Py.splitext. destruct (Z.gtb_spec (Py.rfind "." p) (Py.rfind "/" p))
    as [Hgt|Hle]; [|cbn; split; [apply string_app_nil_r | by left]].
  destruct (skip_leading_dots_cases p (Py.rfind "." p)
              (Z.to_nat (Py.rfind "." p - (Py.rfind "/" p + 1)))
              (Py.rfind "/" p + 1)) as [-> | ->];
    [cbn; split; [apply string_app_nil_r | by left]|].
  cbn [fst snd].
  pose proof (rfind_from_ge_last "/" p 0 (-1)) as Hsep.
  unfold Py.rfind in *.
  destruct (rfind_from_spec "." p 0 (-1))
    as [[_ Hdot] | (s1 & s2 & -> & Hnodot & Hdot)]; [lia|].
  rewrite Hdot in *. rewrite Z.add_0_l, take_app, drop_app.
  split; [done|]. right. exists s2. split; [done|]. split; [done|].
  intros (a & b & ->)%string_elem_split.
  pose proof (rfind_from_ge "/" (s1 +:+ String "." a) b 0 (-1)) as Hge.
  rewrite string_app_assoc, string_app_cons in Hge.
  rewrite string_length_app in Hge. cbn [String.length] in Hge. lia.
Qed.

(** ** Letter case of the file name *)

Lemma lower_ascii_eqb_dot a : Ascii.eqb (Py.lower_ascii a) "." = Ascii.eqb a ".".
Proof. destruct a as [[] [] [] [] [] [] [] []]; reflexivity. Qed.

Lemma lower_ascii_eqb_slash a : Ascii.eqb (Py.lower_ascii a) "/" = Ascii.eqb a "/".
Proof. destruct a as [[] [] [] [] [] [] [] []]; reflexivity. Qed.

Lemma lower_ascii_idem a : Py.lower_ascii (Py.lower_ascii a) = Py.lower_ascii a.
Proof. destruct a as [[] [] [] [] [] [] [] []]; reflexivity. Qed.

Lemma lower_idem s : Py.lower (Py.lower s) = Py.lower s.
Proof.
  induction s as [|a s IH]; cbn; [done|]. by rewrite lower_ascii_idem, IH.
Qed.

Lemma lower_length s : String.length (Py.lower s) = String.length s.
Proof. induction s as [|a s IH]; cbn; [done | by rewrite IH]. Qed.

Lemma rfind_from_lower c s : ∀ i last,
  (∀ a, Ascii.eqb (Py.lower_ascii a) c = Ascii.eqb a c) →
  Py.rfind_from c (Py.lower s) i last = Py.rfind_from c s i last.
Proof.
  induction s as [|a s IH]; intros i last Hc; cbn; [done|].
  by rewrite Hc, IH.
Qed.

Lemma substring_lower s : ∀ n k,
  String.substring n k (Py.lower s) = Py.lower (String.substring n k s).
Proof.
  induction s as [|a s IH]; intros [|n] [|k]; cbn; try done;
    by rewrite IH.
Qed.

Lemma eqb_lower_dot x : String.eqb (Py.lower x) "." = String.eqb x ".".
Proof.
  destruct x as [|a [|b x]]; cbn; [done | |];
    rewrite lower_ascii_eqb_dot; by destruct (Ascii.eqb a ".").
Qed.

Lemma skip_leading_dots_lower p dotIndex : ∀ n filenameIndex,
  Py.skip_leading_dots (Py.lower p) dotIndex filenameIndex n
  = (Py.lower (fst (Py.skip_leading_dots p dotIndex filenameIndex n)),
     Py.lower (snd (Py.skip_leading_dots p dotIndex filenameIndex n))).
Proof.
  induction n as [|n IH]; intros filenameIndex; cbn [Py.skip_leading_dots];
    [done|].
  unfold Py.char_at. rewrite substring_lower, eqb_lower_dot.
  destruct (negb _); [|apply IH].
  unfold Py.take, Py.drop. by rewrite !substring_lower, lower_length.
Qed.

(** Lowering the name lowers both parts: the cut is at the same place. *)
Lemma splitext_lower p :
  Py.splitext (Py.lower p)
  = (Py.lower (fst (Py.splitext p)), Py.lower (snd (Py.splitext p))).
Proof.
  unfold Py.splitext, Py.rfind.
  rewrite !rfind_from_lower
    by (apply lower_ascii_eqb_dot || apply lower_ascii_eqb_slash).
  destruct (_ >? _); [apply skip_leading_dots_lower | done].
Qed.

(** X13: the letter case of the original file name does not matter.  Two
    uploads whose file names are equal up to the case of their letters,
    with the same declared media type, are stored under the same
    extension. *)
Theorem stored_extension_ignores_case file file' :
  Py.lower (UploadFile.filename file) = Py.lower (UploadFile.filename file') →
  UploadFile.content_type file = UploadFile.content_type file' →
  safe_ext file = safe_ext file'.
Proof.
  intros Hname Htype.
  assert (Hext : original_ext file = original_ext file').
  { unfold original_ext.
    pose proof (splitext_lower (UploadFile.filename file)) as H1.
    pose proof (splitext_lower (UploadFile.filename file')) as H2.
    rewrite Hname, H2 in H1. by injection H1 as _ <-. }
  unfold safe_ext. fold (original_ext file) (original_ext file').
  by rewrite Hext, Htype.
Qed.

Lemma stored_extension_ignores_case_witness :
  safe_ext png_file
  = safe_ext (UploadFile.mk "PIC.png" (Some "image/png") []).
Proof.
  apply (stored_extension_ignores_case png_file
           (UploadFile.mk "PIC.png" (Some "image/png") []));
    reflexivity.
Defined.

(** ** Size of the storage *)

Lemma size_list_to_set_le (l : list string) :
  (size (list_to_set l : gset string) ≤ length l)%nat.
Proof.
  induction l as [|x l IH]; cbn [list_to_set length].
  - by rewrite size_empty.
  - rewrite size_union_alt, size_singleton.
    assert (Hsub : list_to_set l ∖ {[x]} ⊆ (list_to_set l : gset string)).
    { intros y [Hy _]%elem_of_difference. exact Hy. }
    apply subseteq_size in Hsub. lia.
Qed.

Lemma size_map_img_le (ptrs : gmap string string) :
  (size (map_img ptrs : gset string) ≤ size ptrs)%nat.
Proof.
  rewrite map_img_alt_L.
  etrans; [apply size_list_to_set_le|].
  by rewrite length_fmap, length_map_to_list.
Qed.

Lemma no_orphans_size s :
  no_orphans s → (size (files s) ≤ size (USERS s))%nat.
Proof.
  intros Horph.
  set (ptrs := omap (λ u, avatar_path <$> User.avatar_filename u) (USERS s)).
  assert (Hsub : dom (files s) ⊆ (map_img ptrs : gset string)).
  { intros p Hp%elem_of_dom.
    destruct (Horph p Hp) as (key & user & fname & Hu & Hf & ->).
    apply elem_of_map_img. exists key. unfold ptrs.
    rewrite lookup_omap, Hu. cbn. by rewrite Hf. }
  rewrite <- (size_dom (D:=gset string) (files s)).
  etrans; [apply subseteq_size, Hsub|].
  etrans; [apply size_map_img_le|].
  rewrite <- (size_dom (D:=gset string) ptrs), <- (size_dom (D:=gset string) (USERS s)).
  apply subseteq_size, dom_omap_subseteq.
Qed.

(** X14: with requests that do not overlap, storage does not grow with
    the number of uploads.  Let the requests be served one at a time, each
    running to its end before the next starts, with upload tokens of 32
    characters and file writes that succeed.  Starting from a store that
    satisfies the directory invariant and has no orphaned files, the
    avatar directory holds after the last request at most as many files
    as [USERS] has records.  (Uploads that overlap are outside this
    statement.) *)
Theorem storage_bounded_by_users rqs m :
  Forall request_ok rqs →
  directory_ok (now m) →
  no_orphans (now m) →
  (size (files (now (snd (serve rqs m)))) ≤ size (USERS (now m)))%nat.
Proof.
  intros Hrqs Hok Horph.
  destruct (serve_no_orphans rqs m Hrqs Hok Horph) as [_ Horph'].
  etrans; [by apply no_orphans_size|].
  rewrite <- !(size_dom (D:=gset string)). apply Nat.eq_le_incl. f_equal.
  apply set_eq. intros key. rewrite !elem_of_dom.
  pose proof (serve_identities rqs m key) as Hkey.
  destruct (USERS (now (snd (serve rqs m))) !! key),
    (USERS (now m) !! key); cbn in Hkey; try done; by split; eauto.
Qed.

Lemma storage_bounded_by_users_witness :
  (size (files (now (snd (serve a_session m_initial)))) ≤ 2)%nat.
Proof.
  apply (storage_bounded_by_users a_session m_initial a_session_ok).
  - exact (directory_ok_initial ∅).
  - exact (no_orphans_empty USERS_initial).
Defined.

(** ** An avatar stays retrievable *)

(** X15: a user who has an avatar still has a retrievable one after any
    number of requests that do not overlap.  Let the requests be served
    one at a time, each running to its end before the next starts, with
    upload tokens of 32 characters and file writes that succeed.  In a
    store that satisfies the invariants of X6, if the pointer of a user is
    set, then a retrieval of that user made after the last request
    succeeds.  (A retrieval made while an upload of that user is suspended
    between its effects fails, see X16.) *)
Theorem avatar_stays_retrievable rqs m user_id :
  Forall request_ok rqs →
  directory_ok (now m) →
  (∀ key, pointer_valid (now m) key) →
  Py.truthy (pointer_of (now m) user_id) = true →
  ∃ r, get_user_avatar user_id (snd (serve rqs m)) = (inr r, snd (serve rqs m)).
Proof.
  intros Hrqs Hok Hvalid Hset.
  destruct (serve_invariants rqs m Hrqs Hok Hvalid) as (_ & Hvalid' & _).
  pose proof (serve_avatar_kept rqs m user_id Hset) as Hset'.
  unfold pointer_of in Hset'.
  destruct (USERS (now (snd (serve rqs m))) !! user_id) as [user|] eqn:Hu;
    [|done].
  cbn in Hset'.
  destruct (User.avatar_filename user) as [fname|] eqn:Hp; [|done].
  destruct (Hvalid' user_id user fname Hu Hp) as [bytes Hbytes].
  eexists. eapply get_user_avatar_found; [exact Hu | exact Hp | | exact Hbytes].
  apply String.eqb_neq. apply negb_true_iff in Hset'. exact Hset'.
Qed.

Lemma avatar_stays_retrievable_witness :
  ∃ r, get_user_avatar "u1" (snd (serve a_session m_with_avatar))
       = (inr r, snd (serve a_session m_with_avatar)).
Proof.
  apply (avatar_stays_retrievable a_session m_with_avatar "u1" a_session_ok).
  - exact m_with_avatar_ok.
  - unfold m_with_avatar.
    pose proof (handle_keeps_pointers_valid
                  (PostAvatar "u1" png_file hex1) m_initial
                  (directory_ok_initial ∅) (pointers_valid_initial ∅)) as Hvalid.
    rewrite handle_post in Hvalid. exact Hvalid.
  - vm_compute. reflexivity.
Defined.

(** * The stored extension and the extension of the file name *)

(** ** [Py.splitext] finds the extension of a name, and only that *)

Lemma rfind_from_notin c s : ∀ i last,
  c ∉ list_ascii_of_string s → Py.rfind_from c s i last = last.
Proof.
  induction s as [|a s IH]; intros i last; cbn; [done|].
  rewrite not_elem_of_cons. intros [Hne Hnot].
  destruct (Ascii.eqb_spec a c) as [->|_]; [done|]. by apply IH.
Qed.

Lemma rfind_from_app c s1 : ∀ s2 i last,
  Py.rfind_from c (s1 +:+ s2) i last
  = Py.rfind_from c s2 (i + Z.of_nat (String.length s1))
      (Py.rfind_from c s1 i last).
Proof.
  induction s1 as [|a s1 IH]; intros s2 i last.
  - rewrite string_app_nil. cbn. by rewrite Z.add_0_r.
  - rewrite string_app_cons. cbn [Py.rfind_from String.length].
    rewrite IH. f_equal. lia.
Qed.

Lemma rfind_from_lt c s : ∀ i last,
  last < i → Py.rfind_from c s i last < i + Z.of_nat (String.length s).
Proof.
  induction s as [|a s IH]; intros i last Hlt; cbn [Py.rfind_from String.length];
    [lia|].
  specialize (IH (i + 1) (if Ascii.eqb a c then i else last)).
  destruct (Ascii.eqb a c); lia.
Qed.

Lemma rfind_from_exact c s1 s2 i last :
  c ∉ list_ascii_of_string s2 →
  Py.rfind_from c (s1 +:+ String c s2) i last = i + Z.of_nat (String.length s1).
Proof.
  intros Hnot. rewrite rfind_from_app. cbn [Py.rfind_from].
  rewrite Ascii.eqb_refl. by apply rfind_from_notin.
Qed.

Lemma char_at_app r1 c t :
  Py.char_at (Z.of_nat (String.length r1)) (r1 +:+ String c t) = String c "".
Proof.
  unfold Py.char_at. rewrite Nat2Z.id.
  induction r1 as [|x r1 IH]; [by destruct t|].
  rewrite string_app_cons. cbn. exact IH.
Qed.

Lemma string_split_at s : ∀ k,
  (k < String.length s)%nat →
  ∃ r1 c r2, s = r1 +:+ String c r2 ∧ String.length r1 = k.
Proof.
  induction s as [|x s IH]; intros k Hk; cbn in Hk; [lia|].
  destruct k as [|k].
  - by exists "", x, s.
  - destruct (IH k) as (r1 & c & r2 & -> & Hlen); [lia|].
    exists (String x r1), c, r2. split; [done|]. cbn. by rewrite Hlen.
Qed.

(** The loop stops at the first character that is not a period. *)
Lemma skip_leading_dots_finds p dotIndex k : ∀ n filenameIndex,
  filenameIndex ≤ k < filenameIndex + Z.of_nat n →
  String.eqb (Py.char_at k p) "." = false →
  Py.skip_leading_dots p dotIndex filenameIndex n
  = (Py.take dotIndex p, Py.drop dotIndex p).
Proof.
  induction n as [|n IH]; intros filenameIndex Hk Hchar; [lia|].
  cbn [Py.skip_leading_dots].
  destruct (String.eqb (Py.char_at filenameIndex p) ".") eqn:Hhere; [|done].
  cbn [negb]. apply IH; [|done].
  assert (k ≠ filenameIndex) by (intros ->; congruence). lia.
Qed.

Lemma skip_leading_dots_cut p dotIndex : ∀ n filenameIndex a b,
  Py.skip_leading_dots p dotIndex filenameIndex n = (a, b) →
  b ≠ "" →
  (a, b) = (Py.take dotIndex p, Py.drop dotIndex p) ∧
  ∃ k, filenameIndex ≤ k < filenameIndex + Z.of_nat n ∧
       String.eqb (Py.char_at k p) "." = false.
Proof.
  induction n as [|n IH]; intros filenameIndex a b; cbn [Py.skip_leading_dots].
  { intros [= <- <-]. done. }
  destruct (String.eqb (Py.char_at filenameIndex p) ".") eqn:Hhere; cbn [negb].
  - intros Hrec Hb. destruct (IH _ _ _ Hrec Hb) as [Hcut (k & Hk & Hchar)].
    split; [done|]. exists k. split; [lia | done].
  - intros [= <- <-] _. split; [done|]. exists filenameIndex. split; [lia | done].
Qed.

(** Every extension of a name, in the sense of [is_extension_of], is the
    one [Py.splitext] returns. *)
Lemma splitext_complete name root ext :
  is_extension_of name root ext → Py.splitext name = (root, ext).
Proof.
  intros (-> & rest & r1 & c & r2 & -> & Hdot & Hslash & -> & Hc1 & Hc2 & Hr2).
  assert (Hd : Py.rfind "." ((r1 +:+ String c r2) +:+ String "." rest)
               = Z.of_nat (String.length (r1 +:+ String c r2))).
  { unfold Py.rfind. by rewrite rfind_from_exact. }
  assert (Hs : Py.rfind "/" ((r1 +:+ String c r2) +:+ String "." rest)
               = Py.rfind_from "/" r1 0 (-1)).
  { unfold Py.rfind. rewrite string_app_assoc, rfind_from_app.
    apply rfind_from_notin.
    rewrite string_app_cons. cbn [list_ascii_of_string].
    rewrite not_elem_of_cons, string_to_list_app. cbn [list_ascii_of_string].
    rewrite not_elem_of_app, not_elem_of_cons.
    split; [congruence|]. split; [done|]. split; [discriminate | done]. }
  pose proof (rfind_from_ge_last "/" r1 0 (-1)) as Hlo.
  pose proof (rfind_from_lt "/" r1 0 (-1)) as Hhi.
  unfold Py.splitext. rewrite Hd, Hs.
  rewrite string_length_app in *. cbn [String.length] in *.
  destruct (Z.gtb_spec (Z.of_nat (String.length r1 + S (String.length r2)))
              (Py.rfind_from "/" r1 0 (-1))) as [_|]; [|lia].
  rewrite (skip_leading_dots_finds _ _ (Z.of_nat (String.length r1))).
  - replace (Z.of_nat (String.length r1 + S (String.length r2)))
      with (Z.of_nat (String.length (r1 +:+ String c r2)))
      by (rewrite string_length_app; reflexivity).
    by rewrite take_app, drop_app.
  - lia.
  - rewrite string_app_assoc, string_app_cons, char_at_app.
    apply String.eqb_neq. congruence.
Qed.

(** A non-empty extension returned by [Py.splitext] is an extension of the
    name in the sense of [is_extension_of]. *)
Lemma splitext_sound name :
  snd (Py.splitext name) ≠ "" →
  is_extension_of name (fst (Py.splitext name)) (snd (Py.splitext name)).
Proof.
  unfold Py.splitext.
  destruct (Z.gtb_spec (Py.rfind "." name) (Py.rfind "/" name)) as [Hgt|];
    [|done].
  destruct (Py.skip_leading_dots name (Py.rfind "." name) (Py.rfind "/" name + 1)
              (Z.to_nat (Py.rfind "." name - (Py.rfind "/" name + 1))))
    as [a b] eqn:Hskip.
  cbn [fst snd]. intros Hb.
  destruct (skip_leading_dots_cut _ _ _ _ _ _ Hskip Hb)
    as [[= -> ->] (k & Hk & Hchar)].
  pose proof (rfind_from_ge_last "/" name 0 (-1)) as Hsep.
  unfold Py.rfind in *.
  destruct (rfind_from_spec "." name 0 (-1))
    as [[_ Hd] | (s1 & s2 & -> & Hnodot & Hd)]; [lia|].
  rewrite Hd in *. rewrite Z.add_0_l in *. rewrite take_app, drop_app.
  destruct (string_split_at s1 (Z.to_nat k)) as (r1 & c & r2 & -> & Hlen); [lia|].
  assert (Hk' : k = Z.of_nat (String.length r1)) by lia.
  split; [done|]. exists s2, r1, c, r2.
  split; [done|]. split; [done|].
  assert (Hbound : ∀ a' b', (r1 +:+ String c r2) +:+ String "." s2
                            = a' +:+ String "/" b' →
                   Z.of_nat (String.length a') < Z.of_nat (String.length r1)).
  { intros a' b' Heq.
    pose proof (rfind_from_ge "/" a' b' 0 (-1)) as Hge.
    rewrite <- Heq in Hge. lia. }
  split; [|split; [done|]]; [|split; [|split]].
  - intros (a' & b' & ->)%string_elem_split.
    specialize (Hbound ((r1 +:+ String c r2) +:+ String "." a') b').
    rewrite !string_length_app in Hbound. cbn [String.length] in Hbound.
    assert (Heq : (r1 +:+ String c r2) +:+ String "." (a' +:+ String "/" b')
                  = ((r1 +:+ String c r2) +:+ String "." a') +:+ String "/" b')
      by (by rewrite !string_app_assoc, !string_app_cons, ?string_app_assoc).
    specialize (Hbound Heq). lia.
  - intros ->. rewrite Hk', string_app_assoc, string_app_cons, char_at_app in Hchar.
    discriminate.
  - intros ->. specialize (Hbound r1 (r2 +:+ String "." s2)).
    rewrite string_app_assoc, string_app_cons in Hbound.
    specialize (Hbound eq_refl). lia.
  - intros (a' & b' & ->)%string_elem_split.
    specialize (Hbound (r1 +:+ String c a') (b' +:+ String "." s2)).
    rewrite string_length_app in Hbound. cbn [String.length] in Hbound.
    assert (Heq : (r1 +:+ String c (a' +:+ String "/" b')) +:+ String "." s2
                  = (r1 +:+ String c a') +:+ String "/" (b' +:+ String "." s2))
      by (by rewrite !string_app_assoc, !string_app_cons, ?string_app_assoc,
                     ?string_app_cons).
    specialize (Hbound Heq). lia.
Qed.

(** ** [Py.lower] and equality up to case *)

Lemma lower_ascii_upper x :
  (65 ≤ N_of_ascii x)%N → (N_of_ascii x ≤ 90)%N →
  Py.lower_ascii x = ascii_of_N (N_of_ascii x + 32).
Proof.
  intros Hlo Hhi. unfold Py.lower_ascii.
  apply N.leb_le in Hlo, Hhi. by rewrite Hlo, Hhi.
Qed.

Lemma lower_ascii_other x :
  ¬ ((65 ≤ N_of_ascii x)%N ∧ (N_of_ascii x ≤ 90)%N) → Py.lower_ascii x = x.
Proof.
  intros Hnot. unfold Py.lower_ascii.
  destruct (N.leb_spec 65 (N_of_ascii x)), (N.leb_spec (N_of_ascii x) 90);
    cbn; try done. destruct Hnot. by split.
Qed.

Lemma lower_ascii_same_letter x : same_letter x (Py.lower_ascii x).
Proof.
  destruct (decide ((65 ≤ N_of_ascii x)%N ∧ (N_of_ascii x ≤ 90)%N))
    as [[Hlo Hhi]|Hnot].
  - right; left. split; [done|]. split; [done|].
    rewrite lower_ascii_upper by done. apply N_ascii_embedding. lia.
  - left. by rewrite lower_ascii_other.
Qed.

Lemma same_letter_lower x y :
  same_letter x y → Py.lower_ascii y = y → Py.lower_ascii x = y.
Proof.
  intros [-> | [(Hlo & Hhi & Hy) | (Hlo & Hhi & Hx)]] Hlow; [done | |].
  - rewrite lower_ascii_upper by done. rewrite <- Hy. apply ascii_N_embedding.
  - rewrite lower_ascii_upper in Hlow by done.
    apply (f_equal N_of_ascii) in Hlow.
    rewrite N_ascii_embedding in Hlow by lia. lia.
Qed.

Lemma eq_ignoring_case_lower s : eq_ignoring_case s (Py.lower s).
Proof.
  induction s as [|x s IH]; cbn; constructor; [|done].
  apply lower_ascii_same_letter.
Qed.

Lemma eq_ignoring_case_to_lower s t :
  eq_ignoring_case s t → Py.lower t = t → Py.lower s = t.
Proof.
  induction 1 as [|x y a b Hxy _ IH]; [done|].
  cbn. intros [= Hy Hb]. by rewrite (same_letter_lower x y), IH.
Qed.

Lemma accepted_ext_lower acc : acc ∈ accepted_exts → Py.lower acc = acc.
Proof.
  unfold accepted_exts. rewrite !elem_of_cons, elem_of_nil.
  intros [-> | [-> | [-> | []]]]; reflexivity.
Qed.

(** ** The extension of the file name decides the stored extension *)

Lemma accepted_extension_original file acc :
  accepted_extension_of file acc → original_ext file = acc.
Proof.
  intros (Hacc & root & ext & Hext & Hcase). unfold original_ext.
  rewrite (splitext_complete _ _ _ Hext). cbn [snd].
  by apply eq_ignoring_case_to_lower, accepted_ext_lower.
Qed.

Lemma original_accepted_extension file :
  original_ext file ∈ accepted_exts →
  accepted_extension_of file (original_ext file).
Proof.
  intros Hacc. split; [done|].
  exists (fst (Py.splitext (UploadFile.filename file))),
         (snd (Py.splitext (UploadFile.filename file))).
  split; [|apply eq_ignoring_case_lower].
  apply splitext_sound. intros Hempty.
  unfold original_ext in Hacc. rewrite Hempty in Hacc.
  unfold accepted_exts in Hacc. cbn in Hacc.
  rewrite !elem_of_cons, elem_of_nil in Hacc.
  by destruct Hacc as [? | [? | [? | []]]].
Qed.

Lemma safe_ext_of_name file acc :
  accepted_extension_of file acc → safe_ext file = acc.
Proof.
  intros Hacc. pose proof (accepted_extension_original _ _ Hacc) as Heq.
  rewrite safe_ext_original; [done|]. rewrite Heq. by destruct Hacc.
Qed.

Lemma safe_ext_of_type file :
  (∀ acc, ¬ accepted_extension_of file acc) →
  safe_ext file
  = if bool_decide (UploadFile.content_type file = Some "image/jpeg")
    then ".jpg" else ".png".
Proof.
  intros Hnone. apply safe_ext_derived.
  intros Hin. exact (Hnone _ (original_accepted_extension _ Hin)).
Qed.

(** C7: an accepted upload stores the file, and points the user's record
    to it, under the name [id_token] followed by an extension [e].  When
    the original file name has an extension that is, compared without
    regard to case, one of .png, .jpg, .jpeg, [e] is that extension (in
    lower case).  Otherwise [e] is derived from the declared media type:
    .jpg for image/jpeg and .png for image/png.  The extension of the file
    name and the comparison are the ones of [is_extension_of] and
    [eq_ignoring_case], which are stated on the name, without the
    functions the handler computes with. *)
Theorem stored_extension token u record file uuid4_hex m :
  USERS (now m) !! token = Some u →
  USERS (now m) !! User.id u = Some record →
  UploadFile.content_type file = Some "image/jpeg" ∨
  UploadFile.content_type file = Some "image/png" →
  Z.of_nat (length (UploadFile.contents file)) ≤ MAX_AVATAR_SIZE →
  ∃ m' e,
    post_users_me_avatar token file uuid4_hex m = (inr (upload_response u), m') ∧
    User.avatar_filename <$> USERS (now m') !! User.id u
    = Some (Some (User.id u +:+ "_" +:+ uuid4_hex +:+ e)) ∧
    files (now m') !! avatar_path (User.id u +:+ "_" +:+ uuid4_hex +:+ e)
    = Some (UploadFile.contents file) ∧
    (∀ root ext acc,
       is_extension_of (UploadFile.filename file) root ext →
       acc ∈ accepted_exts → eq_ignoring_case ext acc →
       e = acc) ∧
    ((∀ root ext acc,
        is_extension_of (UploadFile.filename file) root ext →
        acc ∈ accepted_exts → ¬ eq_ignoring_case ext acc) →
     (UploadFile.content_type file = Some "image/jpeg" → e = ".jpg") ∧
     (UploadFile.content_type file = Some "image/png" → e = ".png")).
Proof.
  intros Hu Hr Hct Hlen.
  rewrite (post_authenticated _ _ _ _ _ Hu).
  apply content_type_allowed_spec in Hct as Hok.
  rewrite (upload_avatar_success _ _ _ _ _ Hok Hlen Hr).
  eexists _, (safe_ext file). split; [reflexivity|].
  cbn [now USERS files store_after_upload]. unfold new_filename.
  rewrite !lookup_insert_eq. split; [done|]. split; [done|]. split.
  - intros root ext acc Hext Hacc Hcase. apply safe_ext_of_name.
    split; [done|]. by exists root, ext.
  - intros Hnone.
    assert (Htype : ∀ acc, ¬ accepted_extension_of file acc).
    { intros acc (Hacc & root & ext & Hext & Hcase).
      exact (Hnone root ext acc Hext Hacc Hcase). }
    rewrite (safe_ext_of_type file Htype). split.
    + intros Hjpeg. by rewrite bool_decide_eq_true_2.
    + intros Hpng. rewrite bool_decide_eq_false_2; [done|].
      rewrite Hpng. discriminate.
Qed.

Lemma pic_PNG_extension : is_extension_of "pic.PNG" "pic" ".PNG".
Proof.
  split; [reflexivity|]. exists "PNG", "", "p"%char, "ic".
  split; [reflexivity|].
  split; [apply (bool_decide_unpack _); vm_compute; reflexivity|].
  split; [apply (bool_decide_unpack _); vm_compute; reflexivity|].
  split; [reflexivity|]. split; [discriminate|]. split; [discriminate|].
  apply (bool_decide_unpack _). vm_compute. reflexivity.
Qed.

Lemma PNG_is_png : eq_ignoring_case ".PNG" ".png".
Proof.
  constructor; [by left|].
  repeat (constructor; [right; left; cbn; lia|]). constructor.
Qed.

(** A name for which [Py.splitext] finds no extension has none. *)
Lemma no_extension_of name root ext :
  snd (Py.splitext name) = "" → ¬ is_extension_of name root ext.
Proof.
  intros Hnone Hext. pose proof Hext as (_ & rest & _ & _ & _ & -> & _).
  apply splitext_complete in Hext. by rewrite Hext in Hnone.
Qed.

Lemma stored_extension_witness :
  User.avatar_filename <$>
    USERS (now (snd (post_users_me_avatar "u1" upper_png_as_jpeg hex1 m_initial)))
      !! "u1"
  = Some (Some "u1_0123456789abcdef0123456789abcdef.png") ∧
  User.avatar_filename <$>
    USERS (now (snd (post_users_me_avatar "u1" hidden_name_jpeg hex1 m_initial)))
      !! "u1"
  = Some (Some "u1_0123456789abcdef0123456789abcdef.jpg") ∧
  User.avatar_filename <$>
    USERS (now (snd (post_users_me_avatar "u1" dotted_directory_png hex1 m_initial)))
      !! "u1"
  = Some (Some "u1_0123456789abcdef0123456789abcdef.png").
Proof.
  split; [|split].
  - destruct (stored_extension "u1" alice alice upper_png_as_jpeg hex1 m_initial
                u1_is_alice u1_is_alice)
      as (m' & e & Hpost & Hptr & _ & Hname & _).
    + left. reflexivity.
    + vm_compute. discriminate.
    + rewrite (Hname "pic" ".PNG" ".png") in Hptr.
      * rewrite Hpost. exact Hptr.
      * exact pic_PNG_extension.
      * apply (bool_decide_unpack _). vm_compute. reflexivity.
      * exact PNG_is_png.
  - destruct (stored_extension "u1" alice alice hidden_name_jpeg hex1 m_initial
                u1_is_alice u1_is_alice)
      as (m' & e & Hpost & Hptr & _ & _ & Htype).
    + left. reflexivity.
    + vm_compute. discriminate.
    + destruct Htype as [Hjpeg _].
      * intros root ext acc Hext _ _.
        by apply (no_extension_of ".png" root ext).
      * rewrite (Hjpeg eq_refl) in Hptr. rewrite Hpost. exact Hptr.
  - destruct (stored_extension "u1" alice alice dotted_directory_png hex1 m_initial
                u1_is_alice u1_is_alice)
      as (m' & e & Hpost & Hptr & _ & _ & Htype).
    + right. reflexivity.
    + vm_compute. discriminate.
    + destruct Htype as [_ Hpng].
      * intros root ext acc Hext _ _.
        by apply (no_extension_of "v1.jpg/readme" root ext).
      * rewrite (Hpng eq_refl) in Hptr. rewrite Hpost. exact Hptr.
Defined.

(** ** A retrieval during an upload *)


